(** * Underwater optical link simulator: attenuation, sweep and link evaluation

    A shallow embedding of [final_ver.py]: the attenuation model
    ([compute_attenuation_coefficient]), the intensity simulator
    ([compute_intensity_numerical]), the wavelength sweep
    ([ai_predict_optimal_wavelength]), [transmit_data] and the computing part
    of [SimulationGUI.start_simulation].

    Modelling decisions.
    - Python floats are idealised as exact rationals ([Q]): there is no
      rounding, no NaN and no infinity.  Equality of numbers is [Qeq] ([==])
      unless both sides are produced by the very same computation.
    - The module globals [z_max], [a0] and [b0] exist only once
      [start_simulation] has assigned them; they live in a store that every
      function reads.  Reading an unassigned global raises [NameError].
      [I0] and [h] are assigned once at import time and never again: they are
      constants.
    - [env_data] is a dictionary from keys to numbers.
    - Exceptions are values: a computation returns [Ok v] or [Raise e]
      together with the store it leaves behind.
    - [scipy.integrate.solve_ivp] is not part of the program: it is a
      parameter of the development.  [numpy.linspace] and [numpy.argmax] are
      modelled after their NumPy definitions.
    - A ghost trace records every invocation of the simulator, so that
      "how often and where was the simulator run" is a property that can be
      stated. *)

From Stdlib Require Import QArith Qminmax Qround Lqa Lia ZArith.
From stdpp Require Import base strings gmap list.

Local Open Scope Q_scope.

(** ** Numbers *)

(** The literal [5e-5] of line 19. *)
Definition five_e_minus_5 : Q := 5 # 100000.

(** Python's [x < y] on numbers, as a boolean. *)
Definition py_lt (x y : Q) : bool := negb (Qle_bool y x).

(** Python's [x >= y]. *)
Definition py_ge (x y : Q) : bool := Qle_bool y x.

(** Python's two-argument [min]: the second argument wins only when it is
    strictly smaller than the first. *)
Definition py_min (x y : Q) : Q := if py_lt y x then y else x.

(** ** Exceptions and results *)

Inductive exn : Type :=
| NameError (name : string)
| KeyError (key : string)
| ValueError (msg : string)
| IndexError.

Inductive result (A : Type) : Type :=
| Ok (a : A)
| Raise (e : exn).
Arguments Ok {A} a.
Arguments Raise {A} e.

(** ** The store: module globals and the ghost trace *)

Record Globals : Type := mkGlobals {
  g_z_max : option Q;
  g_a0 : option Q;
  g_b0 : option Q
}.

Record World : Type := mkWorld {
  globals : Globals;
  sim_calls : list Q   (* wavelengths the simulator was invoked at, oldest first *)
}.

(** Module-level constants (lines 8 and 13). *)
Definition I0 : Q := 1.
Definition h : Q := 1.
Definition DEFAULT_z_max : Q := 50.
Definition DEFAULT_a0 : Q := 5 # 100.
Definition DEFAULT_b0 : Q := 2 # 100.
Definition DEFAULT_THRESHOLD : Q := 5 # 100.

(** The store right after the module is imported: nothing has assigned
    [z_max], [a0] or [b0] yet. *)
Definition initial_world : World :=
  mkWorld (mkGlobals None None None) [].

(** ** The monad of computations over the store *)

Definition M (A : Type) : Type := World -> result A * World.

Definition ret {A} (a : A) : M A := fun w => (Ok a, w).

Definition bind {A B} (m : M A) (k : A -> M B) : M B :=
  fun w => match m w with
           | (Ok a, w') => k a w'
           | (Raise e, w') => (Raise e, w')
           end.

Definition raise {A} (e : exn) : M A := fun w => (Raise e, w).

Definition lift_result {A} (r : result A) : M A := fun w => (r, w).

Notation "'let*' x := m 'in' k" := (bind m (fun x => k))
  (at level 10, x name, m at level 100, k at level 200).

(** Reading a global by name. *)
Definition read_global (name : string) (field : Globals -> option Q) : M Q :=
  fun w => match field (globals w) with
           | Some v => (Ok v, w)
           | None => (Raise (NameError name), w)
           end.

(** Assigning a global (after [global z_max, a0, b0]). *)
Definition assign_z_max (v : Q) : M unit :=
  fun w => (Ok tt, mkWorld (mkGlobals (Some v) (g_a0 (globals w)) (g_b0 (globals w)))
                           (sim_calls w)).
Definition assign_a0 (v : Q) : M unit :=
  fun w => (Ok tt, mkWorld (mkGlobals (g_z_max (globals w)) (Some v) (g_b0 (globals w)))
                           (sim_calls w)).
Definition assign_b0 (v : Q) : M unit :=
  fun w => (Ok tt, mkWorld (mkGlobals (g_z_max (globals w)) (g_a0 (globals w)) (Some v))
                           (sim_calls w)).

(** [d[key]] on a dictionary. *)
Definition dict_get (d : gmap string Q) (key : string) : M Q :=
  fun w => match d !! key with
           | Some v => (Ok v, w)
           | None => (Raise (KeyError key), w)
           end.

(** Ghost step: the simulator has been entered at [wavelength]. *)
Definition note_sim_call (wavelength : Q) : M unit :=
  fun w => (Ok tt, mkWorld (globals w) (sim_calls w ++ [wavelength])).

(** ** Attenuation model (lines 16-21) *)

(** Line 18: [450 + min(turbidity * 10, 100)]. *)
Definition lambda_opt (turbidity : Q) : Q :=
  450 + py_min (turbidity * 10) 100.

(** Line 19: [a0 + 5e-5 * (wavelength - λ_opt) ** 2]. *)
Definition absorption (a0 wavelength l_opt : Q) : Q :=
  a0 + five_e_minus_5 * (wavelength - l_opt) ^ 2.

(** Line 20: [b0 * (turbidity ** 2) * (wavelength / 500.0)]. *)
Definition scattering (b0 turbidity wavelength : Q) : Q :=
  b0 * (turbidity ^ 2) * (wavelength / 500).

Definition compute_attenuation_coefficient
    (wavelength : Q) (env_data : gmap string Q) : M Q :=
  let* turbidity := dict_get env_data "turbidity" in
  let l_opt := lambda_opt turbidity in
  let* a0 := read_global "a0" g_a0 in
  let a := absorption a0 wavelength l_opt in
  let* b0 := read_global "b0" g_b0 in
  let b := scattering b0 turbidity wavelength in
  ret (a + b).

(** Line 23-24. *)
Definition intensity_derivative (z I c : Q) : Q := - c * I.

(** ** NumPy functions the sweep uses *)

(** [numpy.linspace(start, stop, num)] with its defaults ([endpoint=True]):
    [arange(0, num)] scaled by the step [(stop - start) / (num - 1)] and
    shifted by [start]; with more than one sample the last one is then
    overwritten with [stop].  With one sample there is no step: the sample is
    [0 * (stop - start) + start].  A negative [num] is refused. *)
Definition linspace (start stop : Q) (num : Z) : result (list Q) :=
  if (num <? 0)%Z then
    Raise (ValueError "Number of samples must be non-negative.")
  else
    let div := (num - 1)%Z in
    let delta := stop - start in
    let y := (fun i : nat => inject_Z (Z.of_nat i)) <$> seq 0 (Z.to_nat num) in
    let y :=
      if (0 <? div)%Z then
        let step := delta / inject_Z div in
        if Qeq_bool step 0 then (fun v => v / inject_Z div * delta) <$> y
        else (fun v => v * step) <$> y
      else (fun v => v * delta) <$> y in
    let y := (fun v => v + start) <$> y in
    Ok (if (1 <? num)%Z then <[ Nat.pred (length y) := stop ]> y else y).

(** The scan behind [numpy.argmax]: keep the position of the best value seen
    so far and move on only for a strictly greater one. *)
Fixpoint argmax_scan (best_i : nat) (best : Q) (i : nat) (l : list Q) : nat :=
  match l with
  | [] => best_i
  | x :: r =>
      if py_lt best x then argmax_scan i x (S i) r
      else argmax_scan best_i best (S i) r
  end.

(** [numpy.argmax] of a one-dimensional sequence; it refuses an empty one. *)
Definition argmax (l : list Q) : result nat :=
  match l with
  | [] => Raise (ValueError "attempt to get argmax of an empty sequence")
  | x :: r => Ok (argmax_scan 0 x 1 r)
  end.

(** [l[i]] on a sequence. *)
Definition index (l : list Q) (i : nat) : result Q :=
  match l !! i with
  | Some v => Ok v
  | None => Raise IndexError
  end.

(** A list comprehension [[f(x) for x in l]]: left to right, the first
    exception ends it. *)
Fixpoint comprehension {A B} (f : A -> M B) (l : list A) : M (list B) :=
  match l with
  | [] => ret []
  | x :: r =>
      let* v := f x in
      let* vs := comprehension f r in
      ret (v :: vs)
  end.

(** ** Simulator, sweep and link evaluation *)

(** What the form holds once each entry went through [float(...)]:
    [None] stands for a text that [float] refuses. *)
Record Form : Type := mkForm {
  z_max_entry : option Q;
  a0_entry : option Q;
  b0_entry : option Q;
  threshold_entry : option Q;
  temp_entry : option Q;
  salin_entry : option Q;
  turb_entry : option Q
}.

(** [float(entry.get())]. *)
Definition py_float (entry : option Q) : M Q :=
  match entry with
  | Some v => ret v
  | None => raise (ValueError "could not convert string to float")
  end.

(** What a run of [start_simulation] hands to the log and the plot. *)
Record Report : Type := mkReport {
  optimal_wavelength : Q;
  received_intensity : Q;
  intensities : list Q;
  wavelengths : list Q;
  meets_threshold : bool
}.

Section Simulator.

(** [solve_ivp f (t0, tf) y0] stands for
    [solve_ivp(f, [t0, tf], [y0], method='RK45', t_eval=[tf]).y[0, -1]]:
    the solution at the single evaluation point, or the exception raised
    on the way to it. *)
Variable solve_ivp : (Q -> Q -> Q) -> Q * Q -> Q -> result Q.

(** Lines 26-30. *)
Definition compute_intensity_numerical
    (wavelength : Q) (env_data : gmap string Q) : M Q :=
  let* _ := note_sim_call wavelength in
  let* c := compute_attenuation_coefficient wavelength env_data in
  let ode_fun := fun z I => intensity_derivative z I c in
  let* z_max := read_global "z_max" g_z_max in
  lift_result (solve_ivp ode_fun (0, z_max) I0).

(** Lines 32-36. *)
Definition ai_predict_optimal_wavelength
    (env_data : gmap string Q) (wavelength_range : Q * Q) (num_points : Z)
    : M (Q * list Q * list Q) :=
  let* wavelengths :=
    lift_result (linspace (fst wavelength_range) (snd wavelength_range) num_points) in
  let* intensities :=
    comprehension
      (fun l => let* v := compute_intensity_numerical l env_data in ret (h * v))
      wavelengths in
  let* optimal_index := lift_result (argmax intensities) in
  let* optimal := lift_result (index wavelengths optimal_index) in
  ret (optimal, intensities, wavelengths).

(** Lines 38-39. *)
Definition transmit_data (optimal_wavelength : Q) (env_data : gmap string Q) : M Q :=
  let* v := compute_intensity_numerical optimal_wavelength env_data in
  ret (h * v).

(** Lines 79-89 of [start_simulation]: the entries are converted one after
    the other, and each global is assigned as soon as its entry has been
    converted. *)
Definition read_form (form : Form) : M (Q * gmap string Q) :=
  let* z := py_float (z_max_entry form) in
  let* _ := assign_z_max z in
  let* a := py_float (a0_entry form) in
  let* _ := assign_a0 a in
  let* b := py_float (b0_entry form) in
  let* _ := assign_b0 b in
  let* threshold := py_float (threshold_entry form) in
  let* temperature := py_float (temp_entry form) in
  let* salinity := py_float (salin_entry form) in
  let* turbidity := py_float (turb_entry form) in
  ret (threshold,
       <[ "temperature" := temperature ]>
         (<[ "salinity" := salinity ]>
            (<[ "turbidity" := turbidity ]> (∅ : gmap string Q)))).

(** Lines 104-113 of [start_simulation]: sweep, recompute at the optimum,
    compare with the threshold. *)
Definition evaluate_link (env_data : gmap string Q) (threshold : Q) : M Report :=
  let* swept := ai_predict_optimal_wavelength env_data (400, 600) 100 in
  let '(optimal_wavelength, intensities, wavelengths) := swept in
  let* received_intensity := transmit_data optimal_wavelength env_data in
  ret (mkReport optimal_wavelength received_intensity intensities wavelengths
                (py_ge received_intensity threshold)).

(** [start_simulation] without its logging and plotting: [None] is the
    "Invalid input" return of the [except ValueError] branch. *)
Definition start_simulation (form : Form) : M (option Report) :=
  fun w =>
    match read_form form w with
    | (Raise (ValueError _), w') => (Ok None, w')
    | (Raise e, w') => (Raise e, w')
    | (Ok (threshold, env_data), w') =>
        match evaluate_link env_data threshold w' with
        | (Ok r, w'') => (Ok (Some r), w'')
        | (Raise e, w'') => (Raise e, w'')
        end
    end.

End Simulator.

(** * Vocabulary of the properties *)

(** The store [w] with its trace emptied. *)
Definition fresh (w : World) : World := mkWorld (globals w) [].

(** [m] reads the globals without assigning them and only appends to the
    trace: from any store it does what it does from the emptied one, with the
    old trace in front. *)
Definition tracing {A} (m : M A) : Prop :=
  forall w,
    m w = (fst (m (fresh w)),
           mkWorld (globals w) (sim_calls w ++ sim_calls (snd (m (fresh w))))).

(** Sample [i] of the grid of [n] samples from [lo] to [hi], in the words of
    the specification: [n - 1] equal intervals. *)
Definition evenly_spaced (lo hi : Q) (n i : nat) : Q :=
  lo + inject_Z (Z.of_nat i) * ((hi - lo) / inject_Z (Z.of_nat n - 1)).

(** [numpy.arange(0, n)] as floats. *)
Definition arange (n : nat) : list Q :=
  (fun i : nat => inject_Z (Z.of_nat i)) <$> seq 0 n.

Section Vocabulary.

Variable solve_ivp : (Q -> Q -> Q) -> Q * Q -> Q -> result Q.

(** The solver returns a value for every decay rate over [[0, z]]. *)
Definition solver_returns (z : Q) : Prop :=
  forall c, exists v,
    solve_ivp (fun z' I => intensity_derivative z' I c) (0, z) I0 = Ok v.

(** The body of the list comprehension of line 34 is the body of
    [transmit_data]. *)
Definition sweep (env_data : gmap string Q) (ws : list Q) : M (list Q) :=
  comprehension (fun l => transmit_data solve_ivp l env_data) ws.

End Vocabulary.

(** The reading of "fails before any computation proceeds": the call raises,
    and the store, trace included, is as it was. *)
Definition rejected_up_front {A} (m : M A) (w : World) : Prop :=
  exists e, m w = (Raise e, w).

(** The dictionary line 85-89 builds. *)
Definition env_of (temperature salinity turbidity : Q) : gmap string Q :=
  <[ "temperature" := temperature ]>
    (<[ "salinity" := salinity ]> (<[ "turbidity" := turbidity ]> ∅)).

(** The coefficient of lines 19-21 for the baselines [a] and [b] and the
    turbidity [t], at wavelength [l]. *)
Definition coefficient (a b t l : Q) : Q :=
  absorption a l (lambda_opt t) + scattering b t l.

(** Where the coefficient is least: below [lambda_opt] by [20 * b * t^2]. *)
Definition least_attenuation_wavelength (b t : Q) : Q :=
  lambda_opt t - 20 * b * t ^ 2.

(** Every entry of the form converts. *)
Definition converts (form : Form) : bool :=
  match z_max_entry form, a0_entry form, b0_entry form, threshold_entry form,
        temp_entry form, salin_entry form, turb_entry form with
  | Some _, Some _, Some _, Some _, Some _, Some _, Some _ => true
  | _, _, _, _, _, _, _ => false
  end.

(** The globals after the entries were converted in order from the store
    [g], up to the first one that [float] refuses. *)
Definition globals_after_form (form : Form) (g : Globals) : Globals :=
  match z_max_entry form with
  | None => g
  | Some z =>
      match a0_entry form with
      | None => mkGlobals (Some z) (g_a0 g) (g_b0 g)
      | Some a =>
          match b0_entry form with
          | None => mkGlobals (Some z) (Some a) (g_b0 g)
          | Some b => mkGlobals (Some z) (Some a) (Some b)
          end
      end
  end.

(** The report [r] with its verdict taken against [threshold]. *)
Definition with_threshold (r : Report) (threshold : Q) : Report :=
  mkReport (optimal_wavelength r) (received_intensity r) (intensities r)
           (wavelengths r) (py_ge (received_intensity r) threshold).


(** What the simulator finds missing first, if anything: the turbidity in
    the dictionary, then the globals in the order lines 19, 20 and 29 read
    them. *)
Definition first_missing (env_data : gmap string Q) (g : Globals) : option exn :=
  match env_data !! "turbidity" with
  | None => Some (KeyError "turbidity")
  | Some _ =>
      match g_a0 g with
      | None => Some (NameError "a0")
      | Some _ =>
          match g_b0 g with
          | None => Some (NameError "b0")
          | Some _ =>
              match g_z_max g with
              | None => Some (NameError "z_max")
              | Some _ => None
              end
          end
      end
  end.

Section SolverVocabulary.

Variable solve_ivp : (Q -> Q -> Q) -> Q * Q -> Q -> result Q.


End SolverVocabulary.

(** * Concrete inputs *)

(** A stand-in for the solver, used only to run the program on concrete
    inputs: one backward Euler step over the whole interval, solved for a
    right-hand side that is linear in the state. *)
Definition backward_euler (f : Q -> Q -> Q) (t_span : Q * Q) (y0 : Q) : result Q :=
  Ok (y0 / (1 - (snd t_span - fst t_span) * f (snd t_span) 1)).

(** A stand-in that gives up on decay rates of 0.2 and more, and otherwise
    is [backward_euler]. *)
Definition capped_solver (f : Q -> Q -> Q) (t_span : Q * Q) (y0 : Q) : result Q :=
  if Qle_bool (f 0 1) (- (2 # 10)) then Raise IndexError
  else backward_euler f t_span y0.

(** The defaults the form shows (lines 53-61). *)
Definition sample_form : Form :=
  mkForm (Some 50) (Some (5 # 100)) (Some (2 # 100)) (Some (5 # 100))
         (Some 20) (Some 35) (Some 1).

(** The dictionary and the store of a run on the defaults. *)
Definition sample_env : gmap string Q :=
  <[ "temperature" := 20 ]> (<[ "salinity" := 35 ]> (<[ "turbidity" := 1 ]> ∅)).

Definition sample_world : World :=
  mkWorld (mkGlobals (Some 50) (Some (5 # 100)) (Some (2 # 100))) [].

(** A configuration that the specification calls invalid on every count but
    the number of samples: [z_max <= 0], [a0 <= 0]. *)
Definition invalid_world : World :=
  mkWorld (mkGlobals (Some (-5)) (Some (-1)) (Some (2 # 100))) [].

(** No scattering: the coefficient is symmetric around 460 at turbidity 1. *)
Definition world_no_scattering : World :=
  mkWorld (mkGlobals (Some 50) (Some (5 # 100)) (Some 0)) [].

(** Stores that differ in one global. *)
Definition world_a0_small : World :=
  mkWorld (mkGlobals (Some 50) (Some (5 # 100)) (Some (2 # 100))) [].

Definition world_a0_large : World :=
  mkWorld (mkGlobals (Some 50) (Some 1) (Some (2 # 100))) [].

Definition world_short_link : World :=
  mkWorld (mkGlobals (Some 10) (Some (5 # 100)) (Some (2 # 100))) [].

(** The report and the store of the sample run. *)
Definition sample_report : Report * World :=
  Eval vm_compute in
    match start_simulation backward_euler sample_form initial_world with
    | (Ok (Some r), w') => (r, w')
    | _ => (mkReport 0 0 [] [] false, initial_world)
    end.

(** * Properties *)

(** ** The program on concrete inputs *)

Example linspace_five :
  linspace 400 600 5 = Ok [1600 # 4; 1800 # 4; 2000 # 4; 2200 # 4; 600].
Proof. reflexivity. Qed.

Example linspace_none : linspace 400 600 0 = Ok [].
Proof. reflexivity. Qed.

Example argmax_first_of_ties : argmax [1; 3; 2; 3] = Ok 1%nat.
Proof. reflexivity. Qed.

Example lambda_opt_at_one : lambda_opt 1 = 460.
Proof. reflexivity. Qed.

(** Before [start_simulation] has run, the core cannot: [a0] is unassigned.
    The simulator has been entered once by then. *)
Example sweep_before_any_run :
  ai_predict_optimal_wavelength backward_euler sample_env (400, 600) 2 initial_world
  = (Raise (NameError "a0"), mkWorld (globals initial_world) [400]).
Proof. reflexivity. Qed.

(** A form with an entry that [float] refuses: the run ends in the
    "Invalid input" branch, with [z_max] already assigned. *)
Example start_simulation_invalid_input :
  start_simulation backward_euler
    (mkForm (Some 10) None (Some (2 # 100)) (Some (5 # 100)) (Some 20) (Some 35) (Some 1))
    initial_world
  = (Ok None, mkWorld (mkGlobals (Some 10) None None) []).
Proof. reflexivity. Qed.

(** The run on the defaults, with the stand-in solver: the optimum is within
    one sample spacing of 460, the received intensity lies strictly between 0
    and 1, and the threshold is met. *)
Example sample_run_near_460 :
  460 - 200 / 99 <= optimal_wavelength (fst sample_report)
  /\ optimal_wavelength (fst sample_report) <= 460 + 200 / 99
  /\ 0 < received_intensity (fst sample_report)
  /\ received_intensity (fst sample_report) < 1
  /\ meets_threshold (fst sample_report) = true
  /\ length (sim_calls (snd sample_report)) = 101%nat.
Proof. vm_compute. repeat split; discriminate. Qed.

(** ** Comparisons and [min] *)

Lemma py_lt_true x y : py_lt x y = true <-> x < y.
Proof.
  unfold py_lt. rewrite negb_true_iff. split.
  - intros Hb. apply Qnot_le_lt. intros Hle.
    apply Qle_bool_iff in Hle. congruence.
  - intros Hlt. destruct (Qle_bool y x) eqn:E; [|reflexivity].
    apply Qle_bool_iff in E. exfalso. exact (Qlt_not_le _ _ Hlt E).
Qed.

Lemma py_lt_false x y : py_lt x y = false <-> y <= x.
Proof.
  unfold py_lt. rewrite negb_false_iff. apply Qle_bool_iff.
Qed.

Lemma py_ge_true x y : py_ge x y = true <-> y <= x.
Proof. unfold py_ge. apply Qle_bool_iff. Qed.

Lemma py_min_cases x y :
  (y < x /\ py_min x y = y) \/ (x <= y /\ py_min x y = x).
Proof.
  unfold py_min. destruct (py_lt y x) eqn:E.
  - left. split; [apply py_lt_true; exact E | reflexivity].
  - right. split; [apply py_lt_false; exact E | reflexivity].
Qed.

Lemma Qsquare x : x ^ 2 = x * x.
Proof. reflexivity. Qed.

Lemma Qsquare_nonneg x : 0 <= x ^ 2.
Proof. rewrite Qsquare. nra. Qed.

(** ** The attenuation model *)

(** C5.  For a turbidity that is not negative, the wavelength of least
    absorption [450 + min(turbidity * 10, 100)] lies between 450 and 550; it
    is 450 at turbidity 0 and 550 from turbidity 10 on. *)
Theorem lambda_opt_range (turbidity : Q) :
  0 <= turbidity ->
  (450 <= lambda_opt turbidity /\ lambda_opt turbidity <= 550)
  /\ lambda_opt 0 = 450
  /\ (forall t, t == 0 -> lambda_opt t == 450)
  /\ (forall t, 10 <= t -> lambda_opt t == 550).
Proof.
  intros Hpos. repeat split.
  - unfold lambda_opt.
    destruct (py_min_cases (turbidity * 10) 100) as [[_ ->]|[_ ->]]; lra.
  - unfold lambda_opt.
    destruct (py_min_cases (turbidity * 10) 100) as [[_ ->]|[Hle ->]]; lra.
  - intros t Ht. unfold lambda_opt.
    destruct (py_min_cases (t * 10) 100) as [[Hlt _]|[_ ->]]; lra.
  - intros t Ht. unfold lambda_opt.
    destruct (py_min_cases (t * 10) 100) as [[_ ->]|[Hle ->]]; lra.
Qed.

Lemma lambda_opt_range_witness :
  (450 <= lambda_opt 1 /\ lambda_opt 1 <= 550)
  /\ lambda_opt 0 = 450
  /\ (forall t, t == 0 -> lambda_opt t == 450)
  /\ (forall t, 10 <= t -> lambda_opt t == 550).
Proof. apply (lambda_opt_range 1). discriminate. Defined.

(** The attenuation model leaves the store as it found it. *)
Lemma compute_attenuation_coefficient_world wavelength env_data w :
  snd (compute_attenuation_coefficient wavelength env_data w) = w.
Proof.
  unfold compute_attenuation_coefficient, bind, dict_get, read_global, ret.
  destruct (env_data !! "turbidity"); [|reflexivity].
  destruct (g_a0 (globals w)); [|reflexivity].
  destruct (g_b0 (globals w)); reflexivity.
Qed.

(** Its value when the dictionary has a turbidity and both baselines are
    assigned. *)
Lemma compute_attenuation_coefficient_ok wavelength env_data w turbidity a b :
  env_data !! "turbidity" = Some turbidity ->
  g_a0 (globals w) = Some a ->
  g_b0 (globals w) = Some b ->
  compute_attenuation_coefficient wavelength env_data w
  = (Ok (absorption a wavelength (lambda_opt turbidity)
         + scattering b turbidity wavelength), w).
Proof.
  intros Ht Ha Hb.
  unfold compute_attenuation_coefficient, bind, dict_get, read_global, ret.
  rewrite Ht, Ha, Hb. reflexivity.
Qed.



(** ** Computations that read the globals and extend the trace

    Every function of the core reads the globals, never assigns them, and
    touches the trace only by appending to it.  [tracing m] says so: running
    [m] from any store is running it from the same globals with an empty
    trace, and then putting the old trace in front. *)

Lemma tracing_ret {A} (a : A) : tracing (ret a).
Proof. intros [g t]. unfold ret, fresh. simpl. rewrite app_nil_r. reflexivity. Qed.

Lemma tracing_raise {A} (e : exn) : tracing (@raise A e).
Proof. intros [g t]. unfold raise, fresh. simpl. rewrite app_nil_r. reflexivity. Qed.

Lemma tracing_lift_result {A} (r : result A) : tracing (lift_result r).
Proof. intros [g t]. unfold lift_result, fresh. simpl. rewrite app_nil_r. reflexivity. Qed.

Lemma tracing_read_global name field : tracing (read_global name field).
Proof.
  intros [g t]. unfold read_global, fresh. simpl.
  destruct (field g); simpl; rewrite app_nil_r; reflexivity.
Qed.

Lemma tracing_dict_get d key : tracing (dict_get d key).
Proof.
  intros [g t]. unfold dict_get, fresh.
  destruct (d !! key); simpl; rewrite app_nil_r; reflexivity.
Qed.

Lemma tracing_note_sim_call wavelength : tracing (note_sim_call wavelength).
Proof. intros [g t]. reflexivity. Qed.

Lemma tracing_bind {A B} (m : M A) (k : A -> M B) :
  tracing m -> (forall a, tracing (k a)) -> tracing (bind m k).
Proof.
  intros Hm Hk w. unfold bind.
  rewrite (Hm w).
  destruct (m (fresh w)) as [[a|e] w1] eqn:E; simpl.
  - pose proof (Hm (fresh w)) as Hf.
    change (fresh (fresh w)) with (fresh w) in Hf. rewrite E in Hf.
    destruct w1 as [g1 t1]. simpl in Hf.
    assert (Hg : g1 = globals w) by congruence. subst g1. simpl.
    rewrite (Hk a (mkWorld (globals w) (sim_calls w ++ t1))).
    rewrite (Hk a (mkWorld (globals w) t1)).
    unfold fresh. simpl. rewrite app_assoc. reflexivity.
  - reflexivity.
Qed.

Lemma tracing_comprehension {A B} (f : A -> M B) (l : list A) :
  (forall x, tracing (f x)) -> tracing (comprehension f l).
Proof.
  intros Hf. induction l as [|x r IH]; simpl.
  - apply tracing_ret.
  - apply tracing_bind; [apply Hf|]. intros v.
    apply tracing_bind; [exact IH|]. intros vs. apply tracing_ret.
Qed.

(** What [tracing] gives: the globals survive, and the result depends on the
    globals alone. *)
Lemma tracing_globals {A} (m : M A) w : tracing m -> globals (snd (m w)) = globals w.
Proof. intros Hm. rewrite (Hm w). reflexivity. Qed.

Lemma tracing_result {A} (m : M A) w1 w2 :
  tracing m -> globals w1 = globals w2 -> fst (m w1) = fst (m w2).
Proof.
  intros Hm Hg. rewrite (Hm w1), (Hm w2). unfold fresh. rewrite Hg. reflexivity.
Qed.

Lemma tracing_extends {A} (m : M A) w :
  tracing m -> exists calls, sim_calls (snd (m w)) = sim_calls w ++ calls.
Proof. intros Hm. rewrite (Hm w). simpl. eauto. Qed.

Ltac tracing_step :=
  first
    [ apply tracing_ret | apply tracing_raise | apply tracing_lift_result
    | apply tracing_read_global | apply tracing_dict_get
    | apply tracing_note_sim_call
    | apply tracing_comprehension; intros
    | apply tracing_bind; [|intros] ].

Lemma tracing_compute_attenuation_coefficient wavelength env_data :
  tracing (compute_attenuation_coefficient wavelength env_data).
Proof. unfold compute_attenuation_coefficient. repeat tracing_step. Qed.

Section SimulatorFacts.

Variable solve_ivp : (Q -> Q -> Q) -> Q * Q -> Q -> result Q.

Lemma tracing_compute_intensity_numerical wavelength env_data :
  tracing (compute_intensity_numerical solve_ivp wavelength env_data).
Proof.
  unfold compute_intensity_numerical. repeat tracing_step.
Qed.

Lemma tracing_ai_predict_optimal_wavelength env_data range num_points :
  tracing (ai_predict_optimal_wavelength solve_ivp env_data range num_points).
Proof.
  unfold ai_predict_optimal_wavelength. repeat tracing_step.
Qed.

Lemma tracing_transmit_data optimal env_data :
  tracing (transmit_data solve_ivp optimal env_data).
Proof.
  unfold transmit_data. repeat tracing_step.
Qed.

Lemma tracing_evaluate_link env_data threshold :
  tracing (evaluate_link solve_ivp env_data threshold).
Proof.
  unfold evaluate_link. apply tracing_bind.
  - apply tracing_ai_predict_optimal_wavelength.
  - intros [[opt ints] wls]. repeat tracing_step.
Qed.

End SimulatorFacts.

(** ** [numpy.argmax]: the first position of the greatest value *)

Lemma argmax_scan_spec (r pre : list Q) (best_i : nat) (best : Q) :
  pre !! best_i = Some best ->
  (forall j v, pre !! j = Some v -> v <= best) ->
  (forall j v, (j < best_i)%nat -> pre !! j = Some v -> v < best) ->
  exists m,
    (pre ++ r) !! argmax_scan best_i best (length pre) r = Some m
    /\ (forall j v, (pre ++ r) !! j = Some v -> v <= m)
    /\ (forall j v, (j < argmax_scan best_i best (length pre) r)%nat ->
                    (pre ++ r) !! j = Some v -> v < m).
Proof.
  revert pre best_i best.
  induction r as [|x r IH]; intros pre best_i best Hbest Hmax Hfirst.
  - simpl. rewrite app_nil_r. exists best. auto.
  - simpl. pose proof (lookup_lt_Some _ _ _ Hbest) as Hlt.
    replace (pre ++ x :: r) with ((pre ++ [x]) ++ r)
      by (rewrite <- app_assoc; reflexivity).
    replace (S (length pre)) with (length (pre ++ [x]))
      by (rewrite length_app; simpl; lia).
    destruct (py_lt best x) eqn:E.
    + apply py_lt_true in E. apply IH.
      * apply list_lookup_middle. reflexivity.
      * intros j v Hj. apply lookup_snoc_Some in Hj as [[_ Hj]|[_ <-]].
        -- apply Qlt_le_weak. eapply Qle_lt_trans; [exact (Hmax _ _ Hj)|exact E].
        -- apply Qle_refl.
      * intros j v Hjlt Hj. rewrite lookup_app_l in Hj by exact Hjlt.
        eapply Qle_lt_trans; [exact (Hmax _ _ Hj)|exact E].
    + apply py_lt_false in E. apply IH.
      * rewrite lookup_app_l by exact Hlt. exact Hbest.
      * intros j v Hj. apply lookup_snoc_Some in Hj as [[_ Hj]|[_ <-]].
        -- exact (Hmax _ _ Hj).
        -- exact E.
      * intros j v Hjlt Hj. rewrite lookup_app_l in Hj by lia.
        exact (Hfirst _ _ Hjlt Hj).
Qed.

(** On a sequence that is not empty, [argmax] returns a position whose value
    no value exceeds and which no earlier value reaches. *)
Lemma argmax_spec (l : list Q) :
  l <> [] ->
  exists k m,
    argmax l = Ok k
    /\ l !! k = Some m
    /\ (forall j v, l !! j = Some v -> v <= m)
    /\ (forall j v, (j < k)%nat -> l !! j = Some v -> v < m).
Proof.
  destruct l as [|x r]; [congruence|]. intros _.
  destruct (argmax_scan_spec r [x] 0 x) as (m & Hm & Hmax & Hfirst).
  - reflexivity.
  - intros [|j] v Hj; simpl in Hj; [|discriminate].
    injection Hj as <-. apply Qle_refl.
  - intros j v Hj. lia.
  - exists (argmax_scan 0 x 1 r), m. simpl in *. auto.
Qed.

Lemma argmax_empty : argmax [] = Raise (ValueError "attempt to get argmax of an empty sequence").
Proof. reflexivity. Qed.

(** ** [numpy.linspace]: an evenly spaced grid *)

Lemma shifted_arange_length (f : Q -> Q) lo n :
  length ((fun v => v + lo) <$> (f <$> arange n)) = n.
Proof. unfold arange. rewrite !length_fmap. apply length_seq. Qed.

Lemma shifted_arange_lookup (f : Q -> Q) lo n i v :
  ((fun v => v + lo) <$> (f <$> arange n)) !! i = Some v ->
  (i < n)%nat /\ v = f (inject_Z (Z.of_nat i)) + lo.
Proof.
  unfold arange. rewrite !list_lookup_fmap.
  destruct (seq 0 n !! i) as [k|] eqn:E; simpl; [|discriminate].
  apply lookup_seq in E as [-> Hlt]. intros [= <-]. auto.
Qed.

Lemma inject_Z_nonzero (d : Z) : (d <> 0)%Z -> ~ inject_Z d == 0.
Proof.
  intros Hd Heq. apply Hd.
  unfold Qeq in Heq. simpl in Heq. lia.
Qed.

Lemma evenly_spaced_first lo hi n : evenly_spaced lo hi n 0 == lo.
Proof. unfold evenly_spaced. simpl. ring. Qed.

Lemma evenly_spaced_last lo hi n :
  (2 <= n)%nat -> evenly_spaced lo hi n (n - 1) == hi.
Proof.
  intros Hn. unfold evenly_spaced.
  replace (Z.of_nat (n - 1)) with (Z.of_nat n - 1)%Z by lia.
  field. apply inject_Z_nonzero. lia.
Qed.

(** Consecutive samples are one interval apart. *)
Lemma evenly_spaced_step lo hi n i :
  evenly_spaced lo hi n (S i) - evenly_spaced lo hi n i
  == (hi - lo) / inject_Z (Z.of_nat n - 1).
Proof.
  unfold evenly_spaced.
  replace (Z.of_nat (S i)) with (Z.of_nat i + 1)%Z by lia.
  rewrite inject_Z_plus. change (inject_Z 1) with 1. ring.
Qed.

(** From [lo <= hi] the grid ascends. *)
Lemma evenly_spaced_ascending lo hi n i j :
  (1 <= n)%nat -> lo <= hi -> (i <= j)%nat ->
  evenly_spaced lo hi n i <= evenly_spaced lo hi n j.
Proof.
  intros Hn Hle Hij. unfold evenly_spaced.
  assert (Hs : 0 <= (hi - lo) / inject_Z (Z.of_nat n - 1)).
  { unfold Qdiv. apply Qmult_le_0_compat; [lra|].
    apply Qinv_le_0_compat. change 0 with (inject_Z 0).
    rewrite <- Zle_Qle. lia. }
  assert (Hk : inject_Z (Z.of_nat i) <= inject_Z (Z.of_nat j)).
  { rewrite <- Zle_Qle. lia. }
  nra.
Qed.

Lemma linspace_spec lo hi (n : nat) :
  exists l,
    linspace lo hi (Z.of_nat n) = Ok l
    /\ length l = n
    /\ (forall i v, l !! i = Some v -> v == evenly_spaced lo hi n i)
    /\ ((2 <= n)%nat -> l !! (n - 1)%nat = Some hi)
    /\ (n = 1%nat -> l = [0 * (hi - lo) + lo]).
Proof.
  unfold linspace.
  assert (Hneg : (Z.of_nat n <? 0)%Z = false) by (apply Z.ltb_ge; lia).
  rewrite Hneg, Nat2Z.id. fold (arange n).
  destruct (0 <? Z.of_nat n - 1)%Z eqn:Hdiv.
  - apply Z.ltb_lt in Hdiv.
    assert (Hone : (1 <? Z.of_nat n)%Z = true) by (apply Z.ltb_lt; lia).
    rewrite Hone.
    assert (Hnz : ~ inject_Z (Z.of_nat n - 1) == 0)
      by (apply inject_Z_nonzero; lia).
    assert (Hgen : forall f : Q -> Q,
      (forall i, f (inject_Z (Z.of_nat i)) + lo == evenly_spaced lo hi n i) ->
      let y := (fun v => v + lo) <$> (f <$> arange n) in
      length (<[Nat.pred (length y) := hi]> y) = n
      /\ (forall i v, <[Nat.pred (length y) := hi]> y !! i = Some v ->
                      v == evenly_spaced lo hi n i)
      /\ ((2 <= n)%nat -> <[Nat.pred (length y) := hi]> y !! (n - 1)%nat = Some hi)
      /\ (n = 1%nat -> <[Nat.pred (length y) := hi]> y = [0 * (hi - lo) + lo])).
    { intros f Hf y. subst y. rewrite length_insert, shifted_arange_length.
      split; [reflexivity|]. split; [|split].
      - intros i v Hi. destruct (decide (i = Nat.pred n)) as [->|Hne].
        + rewrite list_lookup_insert_eq in Hi
            by (rewrite shifted_arange_length; lia).
          injection Hi as <-. symmetry.
          replace (Nat.pred n) with (n - 1)%nat by lia.
          apply evenly_spaced_last. lia.
        + rewrite list_lookup_insert_ne in Hi by congruence.
          apply shifted_arange_lookup in Hi as [_ ->]. apply Hf.
      - intros _. replace (n - 1)%nat with (Nat.pred n) by lia.
        apply list_lookup_insert_eq. rewrite shifted_arange_length. lia.
      - intros ->. lia. }
    destruct (Qeq_bool ((hi - lo) / inject_Z (Z.of_nat n - 1)) 0);
      eexists; (split; [reflexivity|]); apply Hgen;
      intros i; unfold evenly_spaced; field; exact Hnz.
  - apply Z.ltb_ge in Hdiv.
    assert (Hone : (1 <? Z.of_nat n)%Z = false) by (apply Z.ltb_ge; lia).
    rewrite Hone. eexists. split; [reflexivity|].
    rewrite shifted_arange_length. split; [reflexivity|]. split; [|split].
    + intros i v Hi. apply shifted_arange_lookup in Hi as [Hlt ->].
      assert (i = 0%nat) by lia. subst i.
      unfold evenly_spaced. simpl. ring.
    + intros Hn. lia.
    + intros ->. reflexivity.
Qed.

Lemma linspace_negative lo hi (num : Z) :
  (num < 0)%Z ->
  linspace lo hi num = Raise (ValueError "Number of samples must be non-negative.").
Proof. intros Hn. unfold linspace. apply Z.ltb_lt in Hn. rewrite Hn. reflexivity. Qed.

Lemma linspace_zero lo hi : linspace lo hi 0 = Ok [].
Proof. reflexivity. Qed.

(** ** The simulator and the sweep *)

Section SweepFacts.

Variable solve_ivp : (Q -> Q -> Q) -> Q * Q -> Q -> result Q.

(** An invocation of the simulator leaves one entry in the trace, whether
    it returns or raises. *)
Lemma compute_intensity_numerical_world wavelength env_data w :
  snd (compute_intensity_numerical solve_ivp wavelength env_data w)
  = mkWorld (globals w) (sim_calls w ++ [wavelength]).
Proof.
  unfold compute_intensity_numerical, bind, note_sim_call. simpl.
  set (w1 := mkWorld (globals w) (sim_calls w ++ [wavelength])).
  pose proof (compute_attenuation_coefficient_world wavelength env_data w1) as Hw.
  destruct (compute_attenuation_coefficient wavelength env_data w1) as [[c|e] w2];
    simpl in Hw; subst w2; [|reflexivity].
  unfold read_global, lift_result.
  destruct (g_z_max (globals w1)); reflexivity.
Qed.

Lemma compute_intensity_numerical_ok wavelength env_data w turbidity z a b :
  env_data !! "turbidity" = Some turbidity ->
  globals w = mkGlobals (Some z) (Some a) (Some b) ->
  compute_intensity_numerical solve_ivp wavelength env_data w
  = (solve_ivp
       (fun z' I =>
          intensity_derivative z' I
            (absorption a wavelength (lambda_opt turbidity)
             + scattering b turbidity wavelength))
       (0, z) I0,
     mkWorld (globals w) (sim_calls w ++ [wavelength])).
Proof.
  intros Ht Hg.
  unfold compute_intensity_numerical, bind, note_sim_call. simpl.
  rewrite (compute_attenuation_coefficient_ok _ _ _ turbidity a b);
    [|exact Ht|simpl; rewrite Hg; reflexivity|simpl; rewrite Hg; reflexivity].
  unfold read_global, lift_result. simpl. rewrite Hg. reflexivity.
Qed.

Lemma transmit_data_world optimal env_data w :
  snd (transmit_data solve_ivp optimal env_data w)
  = mkWorld (globals w) (sim_calls w ++ [optimal]).
Proof.
  unfold transmit_data, bind.
  pose proof (compute_intensity_numerical_world optimal env_data w) as Hw.
  destruct (compute_intensity_numerical solve_ivp optimal env_data w) as [[v|e] w1];
    simpl in Hw; subst w1; reflexivity.
Qed.

(** [transmit_data] is [h] times the simulator's value. *)
Lemma transmit_data_value optimal env_data w y :
  fst (transmit_data solve_ivp optimal env_data w) = Ok y <->
  exists v, fst (compute_intensity_numerical solve_ivp optimal env_data w) = Ok v
            /\ y = h * v.
Proof.
  unfold transmit_data, bind.
  destruct (compute_intensity_numerical solve_ivp optimal env_data w) as [[v|e] w1];
    simpl; split.
  - intros [= <-]. eauto.
  - intros (v' & [= <-] & ->). reflexivity.
  - discriminate.
  - intros (v' & Hv & _). discriminate.
Qed.

Lemma transmit_data_returns optimal env_data w turbidity z a b :
  env_data !! "turbidity" = Some turbidity ->
  globals w = mkGlobals (Some z) (Some a) (Some b) ->
  solver_returns solve_ivp z ->
  exists y, fst (transmit_data solve_ivp optimal env_data w) = Ok y.
Proof.
  intros Ht Hg Hs.
  destruct (Hs (absorption a optimal (lambda_opt turbidity)
                + scattering b turbidity optimal)) as [v Hv].
  exists (h * v). apply transmit_data_value. exists v. split; [|reflexivity].
  rewrite (compute_intensity_numerical_ok _ _ _ turbidity z a b Ht Hg).
  exact Hv.
Qed.

(** A sweep that returns has simulated every wavelength once, in order. *)
Lemma sweep_inv env_data ws w ints w' :
  sweep solve_ivp env_data ws w = (Ok ints, w') ->
  w' = mkWorld (globals w) (sim_calls w ++ ws)
  /\ Forall2 (fun l y => fst (transmit_data solve_ivp l env_data w) = Ok y) ws ints.
Proof.
  unfold sweep. revert w ints w'.
  induction ws as [|l r IH]; intros w ints w'; simpl.
  - unfold ret. intros [= <- <-]. rewrite app_nil_r.
    destruct w; split; [reflexivity|constructor].
  - unfold bind at 1.
    pose proof (transmit_data_world l env_data w) as Hw.
    destruct (transmit_data solve_ivp l env_data w) as [[y|e] w1] eqn:E;
      simpl in Hw; subst w1; [|discriminate].
    unfold bind at 1.
    destruct (comprehension _ r _) as [[ys|e] w2] eqn:Er; [|discriminate].
    unfold ret. intros [= <- <-].
    apply IH in Er as [-> Hall]. simpl. rewrite <- app_assoc. simpl.
    split; [reflexivity|]. constructor.
    + rewrite E. reflexivity.
    + eapply Forall2_impl; [exact Hall|]. intros l' y' Hy'. simpl in Hy'.
      rewrite <- Hy'. apply tracing_result; [|reflexivity].
      apply tracing_transmit_data.
Qed.

(** When the simulator returns at every wavelength, the sweep returns. *)
Lemma sweep_returns env_data ws w :
  (forall l, exists y, fst (transmit_data solve_ivp l env_data w) = Ok y) ->
  exists ints,
    sweep solve_ivp env_data ws w = (Ok ints, mkWorld (globals w) (sim_calls w ++ ws)).
Proof.
  unfold sweep. intros Hret. revert w Hret.
  induction ws as [|l r IH]; intros w Hret; simpl.
  - exists []. unfold ret. rewrite app_nil_r. destruct w; reflexivity.
  - unfold bind at 1.
    pose proof (transmit_data_world l env_data w) as Hw.
    destruct (Hret l) as [y Hy].
    destruct (transmit_data solve_ivp l env_data w) as [[y'|e] w1] eqn:E;
      simpl in Hw, Hy; subst w1; [|discriminate].
    unfold bind at 1.
    destruct (IH (mkWorld (globals w) (sim_calls w ++ [l]))) as [ys Hys].
    { intros l'. destruct (Hret l') as [y2 Hy2]. exists y2.
      rewrite <- Hy2. apply tracing_result; [|reflexivity].
      apply tracing_transmit_data. }
    rewrite Hys. simpl. rewrite <- app_assoc. simpl.
    exists (y' :: ys). reflexivity.
Qed.

Lemma ai_predict_optimal_wavelength_unfold env_data range num_points :
  ai_predict_optimal_wavelength solve_ivp env_data range num_points
  = (let* wavelengths :=
       lift_result (linspace (fst range) (snd range) num_points) in
     let* intensities := sweep solve_ivp env_data wavelengths in
     let* optimal_index := lift_result (argmax intensities) in
     let* optimal := lift_result (index wavelengths optimal_index) in
     ret (optimal, intensities, wavelengths)).
Proof. reflexivity. Qed.

(** What a returning call of the optimizer went through. *)
Lemma ai_predict_optimal_wavelength_inv env_data range num_points w opt ints wls w' :
  ai_predict_optimal_wavelength solve_ivp env_data range num_points w
  = (Ok (opt, ints, wls), w') ->
  linspace (fst range) (snd range) num_points = Ok wls
  /\ w' = mkWorld (globals w) (sim_calls w ++ wls)
  /\ Forall2 (fun l y => fst (transmit_data solve_ivp l env_data w) = Ok y) wls ints
  /\ exists k, argmax ints = Ok k /\ wls !! k = Some opt.
Proof.
  rewrite ai_predict_optimal_wavelength_unfold.
  unfold bind, lift_result, ret, index.
  destruct (linspace (fst range) (snd range) num_points) as [ws|e]; [|discriminate].
  destruct (sweep solve_ivp env_data ws w) as [[ys|e] w1] eqn:Es; [|discriminate].
  destruct (argmax ys) as [k|e] eqn:Ek; [|discriminate].
  destruct (ws !! k) as [o|] eqn:Eo; [|discriminate].
  intros [= <- <- <- <-].
  apply sweep_inv in Es as [-> Hall]. eauto 10.
Qed.

(** With at least one sample, a turbidity in the dictionary, the globals
    assigned and a solver that returns, the optimizer returns. *)
Lemma ai_predict_optimal_wavelength_returns env_data lo hi (n : nat) w turbidity z a b :
  env_data !! "turbidity" = Some turbidity ->
  globals w = mkGlobals (Some z) (Some a) (Some b) ->
  solver_returns solve_ivp z ->
  (1 <= n)%nat ->
  exists opt ints wls,
    ai_predict_optimal_wavelength solve_ivp env_data (lo, hi) (Z.of_nat n) w
    = (Ok (opt, ints, wls), mkWorld (globals w) (sim_calls w ++ wls)).
Proof.
  intros Ht Hg Hs Hn.
  destruct (linspace_spec lo hi n) as (ws & Hws & Hlen & _).
  destruct (sweep_returns env_data ws w) as [ys Hys].
  { intros l. eapply transmit_data_returns; eassumption. }
  pose proof (sweep_inv _ _ _ _ _ Hys) as [_ Hall].
  apply Forall2_length in Hall.
  destruct (argmax_spec ys) as (k & m & Hk & Hm & _).
  { intros ->. simpl in Hall. lia. }
  assert (Hopt : is_Some (ws !! k)).
  { apply lookup_lt_is_Some. rewrite Hall. eapply lookup_lt_Some. exact Hm. }
  destruct Hopt as [opt Hopt].
  exists opt, ys, ws.
  rewrite ai_predict_optimal_wavelength_unfold.
  unfold bind, lift_result, ret, index. simpl.
  rewrite Hws, Hys, Hk, Hopt. reflexivity.
Qed.

End SweepFacts.

(** ** The wavelength optimizer *)

(** C3, as the program has it.  With [n >= 1] samples the optimizer returns:
    it sweeps exactly [n] wavelengths, sample [i] being
    [lo + i * (hi - lo) / (n - 1)] (so the first is [lo]; the last is [hi]
    once [n >= 2], while a single sample is [lo] alone); every intensity is
    [h] times the simulated intensity at its wavelength; and the wavelength
    returned sits at the first position of the greatest intensity, which from
    [lo <= hi] is the lowest wavelength among ties. *)
Theorem optimizer_sweeps_grid_and_takes_first_maximum
    (solve_ivp : (Q -> Q -> Q) -> Q * Q -> Q -> result Q)
    (env_data : gmap string Q) (lo hi : Q) (n : nat) (w : World)
    (turbidity z a b : Q) :
  env_data !! "turbidity" = Some turbidity ->
  globals w = mkGlobals (Some z) (Some a) (Some b) ->
  solver_returns solve_ivp z ->
  (1 <= n)%nat ->
  exists opt ints wls k m,
    ai_predict_optimal_wavelength solve_ivp env_data (lo, hi) (Z.of_nat n) w
    = (Ok (opt, ints, wls), mkWorld (globals w) (sim_calls w ++ wls))
    /\ length wls = n
    /\ (forall i l, wls !! i = Some l -> l == evenly_spaced lo hi n i)
    /\ (forall l, wls !! 0%nat = Some l -> l == lo)
    /\ ((2 <= n)%nat -> wls !! (n - 1)%nat = Some hi)
    /\ (n = 1%nat -> wls = [0 * (hi - lo) + lo])
    /\ Forall2
         (fun l y => exists v,
            fst (compute_intensity_numerical solve_ivp l env_data w) = Ok v
            /\ y = h * v)
         wls ints
    /\ argmax ints = Ok k
    /\ wls !! k = Some opt
    /\ ints !! k = Some m
    /\ (forall j y, ints !! j = Some y -> y <= m)
    /\ (forall j y, (j < k)%nat -> ints !! j = Some y -> y < m)
    /\ (lo <= hi ->
        forall j y l, ints !! j = Some y -> y == m -> wls !! j = Some l -> opt <= l).
Proof.
  intros Ht Hg Hs Hn.
  destruct (ai_predict_optimal_wavelength_returns solve_ivp env_data lo hi n w
              turbidity z a b Ht Hg Hs Hn) as (opt & ints & wls & Hrun).
  pose proof (ai_predict_optimal_wavelength_inv _ _ _ _ _ _ _ _ _ Hrun)
    as (Hlin & _ & Hall & k & Hk & Hopt).
  simpl in Hlin.
  destruct (linspace_spec lo hi n) as (wls' & Hlin' & Hlen & Hgrid & Hlast & Hone).
  assert (wls' = wls) by congruence. subst wls'.
  assert (Hne : ints <> []).
  { intros ->. apply Forall2_length in Hall. simpl in Hall. lia. }
  destruct (argmax_spec ints Hne) as (k' & m & Hk' & Hm & Hmax & Hfirst).
  assert (k' = k) by congruence. subst k'.
  exists opt, ints, wls, k, m.
  split; [exact Hrun|]. split; [exact Hlen|]. split; [exact Hgrid|].
  split.
  { intros l Hl. rewrite (Hgrid _ _ Hl). apply evenly_spaced_first. }
  split; [exact Hlast|]. split; [exact Hone|].
  split.
  { eapply Forall2_impl; [exact Hall|]. intros l y Hy.
    apply transmit_data_value. exact Hy. }
  split; [exact Hk|]. split; [exact Hopt|]. split; [exact Hm|].
  split; [exact Hmax|]. split; [exact Hfirst|].
  intros Hle j y l Hj Hy Hl.
  assert (Hkj : (k <= j)%nat).
  { destruct (le_lt_dec k j) as [Hkj|Hjk]; [exact Hkj|].
    pose proof (Hfirst _ _ Hjk Hj) as Hlt. rewrite Hy in Hlt.
    exfalso. exact (Qlt_irrefl _ Hlt). }
  rewrite (Hgrid _ _ Hopt), (Hgrid _ _ Hl).
  apply evenly_spaced_ascending; assumption.
Qed.

Lemma backward_euler_returns z : solver_returns backward_euler z.
Proof. intros c. eexists. reflexivity. Qed.

Lemma optimizer_sweeps_grid_and_takes_first_maximum_witness :
  exists opt ints wls k m,
    ai_predict_optimal_wavelength backward_euler sample_env (400, 600) (Z.of_nat 5)
      sample_world
    = (Ok (opt, ints, wls),
       mkWorld (globals sample_world) (sim_calls sample_world ++ wls))
    /\ length wls = 5%nat
    /\ (forall i l, wls !! i = Some l -> l == evenly_spaced 400 600 5 i)
    /\ (forall l, wls !! 0%nat = Some l -> l == 400)
    /\ ((2 <= 5)%nat -> wls !! (5 - 1)%nat = Some 600)
    /\ (5%nat = 1%nat -> wls = [0 * (600 - 400) + 400])
    /\ Forall2
         (fun l y => exists v,
            fst (compute_intensity_numerical backward_euler l sample_env sample_world)
            = Ok v
            /\ y = h * v)
         wls ints
    /\ argmax ints = Ok k
    /\ wls !! k = Some opt
    /\ ints !! k = Some m
    /\ (forall j y, ints !! j = Some y -> y <= m)
    /\ (forall j y, (j < k)%nat -> ints !! j = Some y -> y < m)
    /\ (400 <= 600 ->
        forall j y l, ints !! j = Some y -> y == m -> wls !! j = Some l -> opt <= l).
Proof.
  apply (optimizer_sweeps_grid_and_takes_first_maximum backward_euler sample_env
           400 600 5 sample_world 1 50 (5 # 100) (2 # 100)).
  - reflexivity.
  - reflexivity.
  - apply backward_euler_returns.
  - lia.
Defined.

(** C3, the claim as written, fails for a single sample: the sweep over
    [(400, 600)] with one point is [[400]], whatever the solver, so the upper
    endpoint is not among the wavelengths.  And the first maximum is the
    lowest wavelength among ties only on an ascending range: over
    [(470, 450)] the two samples tie and 470 is returned. *)
Lemma single_sample_leaves_out_upper_endpoint :
  linspace 400 600 1 = Ok [400]
  /\ fst (ai_predict_optimal_wavelength backward_euler sample_env (400, 600) 1
            sample_world)
     = Ok (400, [h * (I0 / (1 - (50 - 0) * intensity_derivative 50 1
                                   (absorption (5 # 100) 400 (lambda_opt 1)
                                    + scattering (2 # 100) 1 400)))],
           [400])
  /\ ~ (exists solve_ivp w opt ints wls w' l,
          ai_predict_optimal_wavelength solve_ivp sample_env (400, 600) 1 w
          = (Ok (opt, ints, wls), w')
          /\ l ∈ wls /\ l == 600)
  /\ (exists y,
        fst (ai_predict_optimal_wavelength backward_euler sample_env (470, 450) 2
               world_no_scattering)
        = Ok (470, [y; y], [470; 450])).
Proof.
  split; [reflexivity|]. split; [reflexivity|]. split.
  - intros (solve_ivp & w & opt & ints & wls & w' & l & Hrun & Hin & Heq).
    apply ai_predict_optimal_wavelength_inv in Hrun as (Hlin & _).
    simpl in Hlin. change (linspace 400 600 1) with (Ok [400]) in Hlin.
    injection Hlin as <-.
    apply list_elem_of_singleton in Hin. subst l. discriminate.
  - eexists. vm_compute. reflexivity.
Qed.

(** ** What the optimizer refuses, and what it does not *)

Section Validation.

Variable solve_ivp : (Q -> Q -> Q) -> Q * Q -> Q -> result Q.

(** Past [linspace], the store the optimizer leaves is the one its sweep
    leaves. *)
Lemma ai_predict_optimal_wavelength_world env_data range num_points w wls :
  linspace (fst range) (snd range) num_points = Ok wls ->
  snd (ai_predict_optimal_wavelength solve_ivp env_data range num_points w)
  = snd (sweep solve_ivp env_data wls w).
Proof.
  intros Hlin. rewrite ai_predict_optimal_wavelength_unfold.
  unfold bind, lift_result, ret, index. rewrite Hlin.
  destruct (sweep solve_ivp env_data wls w) as [[ys|e] w1]; [|reflexivity].
  destruct (argmax ys) as [k|e]; [|reflexivity].
  destruct (wls !! k); reflexivity.
Qed.

(** A sweep over at least one wavelength enters the simulator. *)
Lemma sweep_first_call env_data l r w :
  exists calls,
    sim_calls (snd (sweep solve_ivp env_data (l :: r) w))
    = sim_calls w ++ l :: calls.
Proof.
  unfold sweep. simpl. unfold bind at 1.
  pose proof (transmit_data_world solve_ivp l env_data w) as Hw.
  destruct (transmit_data solve_ivp l env_data w) as [[y|e] w1];
    simpl in Hw; subst w1.
  - match goal with |- context [snd (?m ?w1)] =>
      destruct (tracing_extends m w1) as [calls Hcalls]
    end.
    { apply tracing_bind.
      - apply tracing_comprehension. intros x. apply tracing_transmit_data.
      - intros vs. apply tracing_ret. }
    exists calls. rewrite Hcalls. simpl. rewrite <- app_assoc. reflexivity.
  - exists []. reflexivity.
Qed.

End Validation.

(** C4, as the program has it.  Only the number of samples is checked, and
    by NumPy: a negative one is refused by [linspace] and zero by [argmax] of
    the empty sweep, both with a [ValueError] and before the simulator is
    entered.  Nothing looks at the range or at [z_max], [a0], [b0]: with at
    least one sample the optimizer simulates every wavelength and returns
    whenever the solver does. *)
Theorem optimizer_checks_sample_count_only
    (solve_ivp : (Q -> Q -> Q) -> Q * Q -> Q -> result Q)
    (env_data : gmap string Q) (lo hi : Q) (w : World) :
  (forall num : Z, (num < 0)%Z ->
     ai_predict_optimal_wavelength solve_ivp env_data (lo, hi) num w
     = (Raise (ValueError "Number of samples must be non-negative."), w))
  /\ ai_predict_optimal_wavelength solve_ivp env_data (lo, hi) 0 w
     = (Raise (ValueError "attempt to get argmax of an empty sequence"), w)
  /\ (forall (n : nat) turbidity z a b,
        (1 <= n)%nat ->
        env_data !! "turbidity" = Some turbidity ->
        globals w = mkGlobals (Some z) (Some a) (Some b) ->
        solver_returns solve_ivp z ->
        exists opt ints wls,
          ai_predict_optimal_wavelength solve_ivp env_data (lo, hi) (Z.of_nat n) w
          = (Ok (opt, ints, wls), mkWorld (globals w) (sim_calls w ++ wls))
          /\ length wls = n /\ length ints = n).
Proof.
  split; [|split].
  - intros num Hneg. rewrite ai_predict_optimal_wavelength_unfold.
    unfold bind, lift_result. simpl. rewrite (linspace_negative lo hi num Hneg).
    reflexivity.
  - destruct w. reflexivity.
  - intros n turbidity z a b Hn Ht Hg Hs.
    destruct (ai_predict_optimal_wavelength_returns solve_ivp env_data lo hi n w
                turbidity z a b Ht Hg Hs Hn) as (opt & ints & wls & Hrun).
    exists opt, ints, wls. split; [exact Hrun|].
    apply ai_predict_optimal_wavelength_inv in Hrun as (Hlin & _ & Hall & _).
    simpl in Hlin.
    destruct (linspace_spec lo hi n) as (wls' & Hlin' & Hlen & _).
    assert (wls' = wls) by congruence. subst wls'.
    split; [exact Hlen|]. apply Forall2_length in Hall. congruence.
Qed.

Lemma optimizer_checks_sample_count_only_witness :
  ai_predict_optimal_wavelength backward_euler sample_env (600, 400) (-1) invalid_world
  = (Raise (ValueError "Number of samples must be non-negative."), invalid_world)
  /\ ai_predict_optimal_wavelength backward_euler sample_env (600, 400) 0 invalid_world
     = (Raise (ValueError "attempt to get argmax of an empty sequence"), invalid_world)
  /\ exists opt ints wls,
       ai_predict_optimal_wavelength backward_euler sample_env (600, 400)
         (Z.of_nat 3) invalid_world
       = (Ok (opt, ints, wls),
          mkWorld (globals invalid_world) (sim_calls invalid_world ++ wls))
       /\ length wls = 3%nat /\ length ints = 3%nat.
Proof.
  pose proof (optimizer_checks_sample_count_only backward_euler sample_env 600 400
                invalid_world) as (Hneg & Hzero & Hpos).
  split; [apply Hneg; lia|]. split; [exact Hzero|].
  apply (Hpos 3%nat 1 (-5) (-1) (2 # 100)).
  - lia.
  - reflexivity.
  - reflexivity.
  - apply backward_euler_returns.
Defined.

(** C4, the claim as written, fails: with the range upside down, [z_max <= 0]
    and [a0 <= 0], no solver makes the optimizer fail before computing (the
    simulator is entered at 600), and with the stand-in solver the call
    returns a result. *)
Lemma invalid_configuration_is_not_rejected :
  ~ (exists solve_ivp,
       rejected_up_front
         (ai_predict_optimal_wavelength solve_ivp sample_env (600, 400) 100)
         invalid_world)
  /\ (exists r w',
        ai_predict_optimal_wavelength backward_euler sample_env (600, 400) 100
          invalid_world
        = (Ok r, w')).
Proof.
  split.
  - intros (solve_ivp & e & Hrun).
    assert (Hlin : exists l r, linspace 600 400 100 = Ok (l :: r)).
    { eexists. eexists. vm_compute. reflexivity. }
    destruct Hlin as (l & r & Hlin).
    pose proof (ai_predict_optimal_wavelength_world solve_ivp sample_env (600, 400)
                  100 invalid_world (l :: r) Hlin) as Hw.
    rewrite Hrun in Hw. simpl in Hw.
    destruct (sweep_first_call solve_ivp sample_env l r invalid_world)
      as [calls Hcalls].
    rewrite <- Hw in Hcalls. simpl in Hcalls. discriminate.
  - eexists. eexists. vm_compute. reflexivity.
Qed.

(** ** Reading the form *)

Lemma env_of_turbidity temperature salinity turbidity :
  env_of temperature salinity turbidity !! "turbidity" = Some turbidity.
Proof.
  unfold env_of.
  rewrite lookup_insert_ne by discriminate.
  rewrite lookup_insert_ne by discriminate.
  apply lookup_insert_eq.
Qed.

(** When every entry converts, all three globals are assigned from the form
    and the trace is untouched. *)
Lemma read_form_ok form w threshold env_data w1 :
  read_form form w = (Ok (threshold, env_data), w1) ->
  exists z a b temperature salinity turbidity,
    form = mkForm (Some z) (Some a) (Some b) (Some threshold)
                  (Some temperature) (Some salinity) (Some turbidity)
    /\ w1 = mkWorld (mkGlobals (Some z) (Some a) (Some b)) (sim_calls w)
    /\ env_data = env_of temperature salinity turbidity.
Proof.
  destruct form as [[z|] [a|] [b|] [th|] [te|] [sa|] [tu|]];
    unfold read_form, bind, py_float, ret, raise,
      assign_z_max, assign_a0, assign_b0; simpl; try discriminate.
  intros [= <- <- <-]. exists z, a, b, te, sa, tu. auto.
Qed.

(** The only exception [read_form] raises is [float]'s [ValueError]. *)
Lemma read_form_raise form w e w1 :
  read_form form w = (Raise e, w1) -> exists msg, e = ValueError msg.
Proof.
  destruct form as [[z|] [a|] [b|] [th|] [te|] [sa|] [tu|]];
    unfold read_form, bind, py_float, ret, raise,
      assign_z_max, assign_a0, assign_b0; simpl; try discriminate;
    intros [= <- _]; eauto.
Qed.

(** What [read_form] returns does not depend on the store it starts from. *)
Lemma read_form_result form w1 w2 :
  fst (read_form form w1) = fst (read_form form w2)
  /\ (forall v, fst (read_form form w1) = Ok v ->
        globals (snd (read_form form w1)) = globals (snd (read_form form w2))).
Proof.
  destruct form as [[z|] [a|] [b|] [th|] [te|] [sa|] [tu|]];
    unfold read_form, bind, py_float, ret, raise,
      assign_z_max, assign_a0, assign_b0; simpl;
    (split; [reflexivity|]); intros v; try discriminate.
  reflexivity.
Qed.

Section LinkFacts.

Variable solve_ivp : (Q -> Q -> Q) -> Q * Q -> Q -> result Q.

(** What a returning link evaluation went through. *)
Lemma evaluate_link_inv env_data threshold w r w' :
  evaluate_link solve_ivp env_data threshold w = (Ok r, w') ->
  exists w1,
    ai_predict_optimal_wavelength solve_ivp env_data (400, 600) 100 w
    = (Ok (optimal_wavelength r, intensities r, wavelengths r), w1)
    /\ transmit_data solve_ivp (optimal_wavelength r) env_data w1
       = (Ok (received_intensity r), w')
    /\ meets_threshold r = py_ge (received_intensity r) threshold.
Proof.
  unfold evaluate_link, bind at 1.
  destruct (ai_predict_optimal_wavelength solve_ivp env_data (400, 600) 100 w)
    as [[[[opt ints] wls]|e] w1]; [|discriminate].
  unfold bind, ret.
  destruct (transmit_data solve_ivp opt env_data w1) as [[y|e] w2] eqn:Et;
    [|discriminate].
  intros [= <- <-]. simpl. exists w1. rewrite Et. auto.
Qed.

(** A run that reports went through [read_form] and [evaluate_link]. *)
Lemma start_simulation_inv form w r w' :
  start_simulation solve_ivp form w = (Ok (Some r), w') ->
  exists threshold env_data w0,
    read_form form w = (Ok (threshold, env_data), w0)
    /\ evaluate_link solve_ivp env_data threshold w0 = (Ok r, w').
Proof.
  unfold start_simulation.
  destruct (read_form form w) as [[[threshold env_data]|e] w0].
  - destruct (evaluate_link solve_ivp env_data threshold w0) as [[r'|e] w1] eqn:El;
      [|discriminate].
    intros [= <- <-]. eauto.
  - destruct e; discriminate.
Qed.

End LinkFacts.

(** ** The link evaluation *)

(** C6.  A run of [start_simulation] that reports has entered the simulator
    once per swept wavelength and then once more, at the optimal wavelength:
    the received intensity is [h] times what that invocation returns, it is
    not read off the sweep; and the verdict is [true] exactly when the
    received intensity is at least the threshold. *)
Theorem link_evaluation_reinvokes_simulator
    (solve_ivp : (Q -> Q -> Q) -> Q * Q -> Q -> result Q)
    (form : Form) (w : World) (r : Report) (w' : World) :
  start_simulation solve_ivp form w = (Ok (Some r), w') ->
  exists threshold env_data w0 v,
    read_form form w = (Ok (threshold, env_data), w0)
    /\ sim_calls w' = sim_calls w ++ wavelengths r ++ [optimal_wavelength r]
    /\ length (wavelengths r) = 100%nat
    /\ fst (compute_intensity_numerical solve_ivp (optimal_wavelength r) env_data w')
       = Ok v
    /\ received_intensity r = h * v
    /\ (meets_threshold r = true <-> threshold <= received_intensity r).
Proof.
  intros Hrun.
  apply start_simulation_inv in Hrun as (threshold & env_data & w0 & Hread & Hlink).
  pose proof (read_form_ok _ _ _ _ _ Hread)
    as (z & a & b & te & sa & tu & _ & Hw0 & _).
  apply evaluate_link_inv in Hlink as (w1 & Hsweep & Htrans & Hverdict).
  apply ai_predict_optimal_wavelength_inv in Hsweep as (Hlin & Hw1 & _ & _).
  pose proof (transmit_data_world solve_ivp (optimal_wavelength r) env_data w1) as Hw'.
  rewrite Htrans in Hw'. simpl in Hw'.
  assert (Hv : fst (transmit_data solve_ivp (optimal_wavelength r) env_data w1)
               = Ok (received_intensity r)) by (rewrite Htrans; reflexivity).
  apply transmit_data_value in Hv as (v & Hv & Hrecv).
  exists threshold, env_data, w0, v.
  split; [exact Hread|]. split.
  { rewrite Hw', Hw1, Hw0. simpl. rewrite <- app_assoc. reflexivity. }
  split.
  { destruct (linspace_spec 400 600 100) as (wls & Hlin' & Hlen & _).
    simpl in Hlin. change (Z.of_nat 100) with 100%Z in Hlin'.
    congruence. }
  split.
  { rewrite <- Hv. apply tracing_result.
    - apply tracing_compute_intensity_numerical.
    - rewrite Hw'. reflexivity. }
  split; [exact Hrecv|].
  rewrite Hverdict. apply py_ge_true.
Qed.

Lemma sample_run :
  start_simulation backward_euler sample_form initial_world
  = (Ok (Some (fst sample_report)), snd sample_report).
Proof. vm_compute. reflexivity. Qed.

Lemma link_evaluation_reinvokes_simulator_witness :
  exists threshold env_data w0 v,
    read_form sample_form initial_world = (Ok (threshold, env_data), w0)
    /\ sim_calls (snd sample_report)
       = sim_calls initial_world ++ wavelengths (fst sample_report)
         ++ [optimal_wavelength (fst sample_report)]
    /\ length (wavelengths (fst sample_report)) = 100%nat
    /\ fst (compute_intensity_numerical backward_euler
              (optimal_wavelength (fst sample_report)) env_data (snd sample_report))
       = Ok v
    /\ received_intensity (fst sample_report) = h * v
    /\ (meets_threshold (fst sample_report) = true
        <-> threshold <= received_intensity (fst sample_report)).
Proof.
  apply (link_evaluation_reinvokes_simulator backward_euler sample_form initial_world
           (fst sample_report) (snd sample_report)).
  exact sample_run.
Defined.

(** C8.  In a link evaluation that returns, the received intensity that
    [transmit_data] recomputes at the optimal wavelength is the very value
    the sweep holds at the position [argmax] chose. *)
Theorem recomputed_intensity_is_sweep_value
    (solve_ivp : (Q -> Q -> Q) -> Q * Q -> Q -> result Q)
    (env_data : gmap string Q) (threshold : Q) (w : World) (r : Report) (w' : World) :
  evaluate_link solve_ivp env_data threshold w = (Ok r, w') ->
  exists k w1,
    ai_predict_optimal_wavelength solve_ivp env_data (400, 600) 100 w
    = (Ok (optimal_wavelength r, intensities r, wavelengths r), w1)
    /\ argmax (intensities r) = Ok k
    /\ wavelengths r !! k = Some (optimal_wavelength r)
    /\ transmit_data solve_ivp (optimal_wavelength r) env_data w1
       = (Ok (received_intensity r), w')
    /\ intensities r !! k = Some (received_intensity r).
Proof.
  intros Hlink.
  apply evaluate_link_inv in Hlink as (w1 & Hsweep & Htrans & _).
  pose proof (ai_predict_optimal_wavelength_inv _ _ _ _ _ _ _ _ _ Hsweep)
    as (_ & Hw1 & Hall & k & Hk & Hopt).
  exists k, w1. repeat (split; [assumption|]).
  destruct (Forall2_lookup_l _ _ _ _ _ Hall Hopt) as (y & Hy & Hval).
  rewrite Hy. f_equal.
  assert (Hsame : fst (transmit_data solve_ivp (optimal_wavelength r) env_data w1)
                  = fst (transmit_data solve_ivp (optimal_wavelength r) env_data w)).
  { apply tracing_result; [apply tracing_transmit_data|].
    rewrite Hw1. reflexivity. }
  rewrite Htrans, Hval in Hsame. simpl in Hsame. congruence.
Qed.

Lemma sample_link :
  evaluate_link backward_euler sample_env (5 # 100) sample_world
  = (Ok (fst sample_report), snd sample_report).
Proof. vm_compute. reflexivity. Qed.

Lemma recomputed_intensity_is_sweep_value_witness :
  exists k w1,
    ai_predict_optimal_wavelength backward_euler sample_env (400, 600) 100 sample_world
    = (Ok (optimal_wavelength (fst sample_report), intensities (fst sample_report),
           wavelengths (fst sample_report)), w1)
    /\ argmax (intensities (fst sample_report)) = Ok k
    /\ wavelengths (fst sample_report) !! k = Some (optimal_wavelength (fst sample_report))
    /\ transmit_data backward_euler (optimal_wavelength (fst sample_report)) sample_env w1
       = (Ok (received_intensity (fst sample_report)), snd sample_report)
    /\ intensities (fst sample_report) !! k
       = Some (received_intensity (fst sample_report)).
Proof.
  apply (recomputed_intensity_is_sweep_value backward_euler sample_env (5 # 100)
           sample_world (fst sample_report) (snd sample_report)).
  exact sample_link.
Defined.

(** ** Globals, hidden state and what the results depend on *)

(** C7, the claim as written, fails: with the same wavelength and the same
    dictionary, the attenuation model returns different coefficients under
    different values of the global [a0], and raises [NameError] while [a0] is
    unassigned; the simulator likewise follows the global [z_max]. *)
Lemma attenuation_follows_the_globals :
  fst (compute_attenuation_coefficient 500 sample_env world_a0_small)
  = Ok ((5 # 100) + five_e_minus_5 * (500 - 460) ^ 2 + (2 # 100) * 1 ^ 2 * (500 / 500))
  /\ fst (compute_attenuation_coefficient 500 sample_env world_a0_large)
     = Ok (1 + five_e_minus_5 * (500 - 460) ^ 2 + (2 # 100) * 1 ^ 2 * (500 / 500))
  /\ ~ (5 # 100) + five_e_minus_5 * (500 - 460) ^ 2 + (2 # 100) * 1 ^ 2 * (500 / 500)
       == 1 + five_e_minus_5 * (500 - 460) ^ 2 + (2 # 100) * 1 ^ 2 * (500 / 500)
  /\ fst (compute_attenuation_coefficient 500 sample_env initial_world)
     = Raise (NameError "a0")
  /\ fst (compute_intensity_numerical backward_euler 500 sample_env world_a0_small)
     <> fst (compute_intensity_numerical backward_euler 500 sample_env world_short_link)
  /\ (forall solve_ivp,
        fst (compute_intensity_numerical solve_ivp 500 sample_env initial_world)
        = Raise (NameError "a0")).
Proof.
  repeat split; try reflexivity.
  - discriminate.
  - vm_compute. discriminate.
Qed.

(** C7, as the program has it.  The attenuation model and the simulator read
    [a0], [b0] (and [z_max]) from the module globals: their results are
    functions of the explicit arguments together with those globals, and of
    nothing else; neither assigns a global; and a run of [start_simulation]
    that reports has assigned all three globals from the form before the
    first call. *)
Theorem results_depend_on_arguments_and_globals
    (solve_ivp : (Q -> Q -> Q) -> Q * Q -> Q -> result Q)
    (wavelength : Q) (env_data : gmap string Q) (w1 w2 : World) :
  globals w1 = globals w2 ->
  fst (compute_attenuation_coefficient wavelength env_data w1)
  = fst (compute_attenuation_coefficient wavelength env_data w2)
  /\ fst (compute_intensity_numerical solve_ivp wavelength env_data w1)
     = fst (compute_intensity_numerical solve_ivp wavelength env_data w2)
  /\ snd (compute_attenuation_coefficient wavelength env_data w1) = w1
  /\ globals (snd (compute_intensity_numerical solve_ivp wavelength env_data w1))
     = globals w1
  /\ (forall form w r w',
        start_simulation solve_ivp form w = (Ok (Some r), w') ->
        globals w'
        = mkGlobals (z_max_entry form) (a0_entry form) (b0_entry form)).
Proof.
  intros Hg. split; [|split; [|split; [|split]]].
  - apply tracing_result; [apply tracing_compute_attenuation_coefficient|exact Hg].
  - apply tracing_result; [apply tracing_compute_intensity_numerical|exact Hg].
  - apply compute_attenuation_coefficient_world.
  - apply tracing_globals. apply tracing_compute_intensity_numerical.
  - intros form w r w' Hrun.
    apply start_simulation_inv in Hrun as (threshold & env & w0 & Hread & Hlink).
    apply read_form_ok in Hread as (z & a & b & te & sa & tu & -> & -> & _).
    pose proof (tracing_globals _ (mkWorld (mkGlobals (Some z) (Some a) (Some b))
                                           (sim_calls w))
                  (tracing_evaluate_link solve_ivp env threshold)) as Hglob.
    rewrite Hlink in Hglob. exact Hglob.
Qed.

Lemma results_depend_on_arguments_and_globals_witness :
  fst (compute_attenuation_coefficient 500 sample_env sample_world)
  = fst (compute_attenuation_coefficient 500 sample_env
           (mkWorld (globals sample_world) [400; 450]))
  /\ fst (compute_intensity_numerical backward_euler 500 sample_env sample_world)
     = fst (compute_intensity_numerical backward_euler 500 sample_env
              (mkWorld (globals sample_world) [400; 450]))
  /\ snd (compute_attenuation_coefficient 500 sample_env sample_world) = sample_world
  /\ globals (snd (compute_intensity_numerical backward_euler 500 sample_env
                     sample_world))
     = globals sample_world
  /\ (forall form w r w',
        start_simulation backward_euler form w = (Ok (Some r), w') ->
        globals w'
        = mkGlobals (z_max_entry form) (a0_entry form) (b0_entry form)).
Proof.
  apply (results_depend_on_arguments_and_globals backward_euler 500 sample_env
           sample_world (mkWorld (globals sample_world) [400; 450])).
  reflexivity.
Defined.

(** C9.  What a run of [start_simulation] returns is decided by the form
    alone: it is the same from any two stores, so whatever an earlier run
    left in the globals or in the trace has no influence, and running the
    same form a second time returns the same again. *)
Theorem start_simulation_is_deterministic
    (solve_ivp : (Q -> Q -> Q) -> Q * Q -> Q -> result Q)
    (form : Form) :
  (forall w1 w2,
     fst (start_simulation solve_ivp form w1)
     = fst (start_simulation solve_ivp form w2))
  /\ (forall w,
        fst (start_simulation solve_ivp form
               (snd (start_simulation solve_ivp form w)))
        = fst (start_simulation solve_ivp form w)).
Proof.
  assert (Hany : forall w1 w2,
             fst (start_simulation solve_ivp form w1)
             = fst (start_simulation solve_ivp form w2)).
  { intros w1 w2. unfold start_simulation.
    destruct (read_form_result form w1 w2) as [Hres Hglob].
    destruct (read_form form w1) as [[[th1 env1]|e1] u1];
      destruct (read_form form w2) as [[[th2 env2]|e2] u2];
      simpl in Hres; try discriminate.
    - injection Hres as <- <-. specialize (Hglob _ eq_refl). simpl in Hglob.
      pose proof (tracing_result _ u1 u2
                    (tracing_evaluate_link solve_ivp env1 th1) Hglob) as Hlink.
      destruct (evaluate_link solve_ivp env1 th1 u1) as [[r1|x1] v1];
        destruct (evaluate_link solve_ivp env1 th1 u2) as [[r2|x2] v2];
        simpl in Hlink |- *; try discriminate; congruence.
    - injection Hres as <-. destruct e1; reflexivity. }
  split; [exact Hany|]. intros w. apply Hany.
Qed.

(** The core looks up the turbidity and nothing else in the dictionary. *)
Lemma same_turbidity_same_results
    (solve_ivp : (Q -> Q -> Q) -> Q * Q -> Q -> result Q)
    (env1 env2 : gmap string Q) :
  env1 !! "turbidity" = env2 !! "turbidity" ->
  (forall l w, compute_attenuation_coefficient l env1 w
               = compute_attenuation_coefficient l env2 w)
  /\ (forall l w, compute_intensity_numerical solve_ivp l env1 w
                  = compute_intensity_numerical solve_ivp l env2 w)
  /\ (forall range num w,
        ai_predict_optimal_wavelength solve_ivp env1 range num w
        = ai_predict_optimal_wavelength solve_ivp env2 range num w)
  /\ (forall l w, transmit_data solve_ivp l env1 w = transmit_data solve_ivp l env2 w)
  /\ (forall threshold w,
        evaluate_link solve_ivp env1 threshold w
        = evaluate_link solve_ivp env2 threshold w).
Proof.
  intros Hturb.
  assert (Hatt : forall l w, compute_attenuation_coefficient l env1 w
                             = compute_attenuation_coefficient l env2 w).
  { intros l w. unfold compute_attenuation_coefficient, bind, dict_get.
    rewrite Hturb. reflexivity. }
  assert (Hsim : forall l w, compute_intensity_numerical solve_ivp l env1 w
                             = compute_intensity_numerical solve_ivp l env2 w).
  { intros l w. unfold compute_intensity_numerical, bind. simpl.
    rewrite Hatt. reflexivity. }
  assert (Htrans : forall l w, transmit_data solve_ivp l env1 w
                               = transmit_data solve_ivp l env2 w).
  { intros l w. unfold transmit_data, bind. rewrite Hsim. reflexivity. }
  assert (Hsweep : forall ws w, sweep solve_ivp env1 ws w = sweep solve_ivp env2 ws w).
  { unfold sweep. induction ws as [|l r IH]; intros w; simpl; [reflexivity|].
    unfold bind at 1 3. rewrite Htrans.
    destruct (transmit_data solve_ivp l env2 w) as [[y|e] w1]; [|reflexivity].
    unfold bind. rewrite IH. reflexivity. }
  assert (Hopt : forall range num w,
             ai_predict_optimal_wavelength solve_ivp env1 range num w
             = ai_predict_optimal_wavelength solve_ivp env2 range num w).
  { intros range num w. rewrite !ai_predict_optimal_wavelength_unfold.
    unfold bind at 1 5. unfold lift_result at 1 4.
    destruct (linspace (fst range) (snd range) num) as [ws|e]; [|reflexivity].
    unfold bind at 1 4. rewrite Hsweep. reflexivity. }
  repeat split; try assumption.
  intros threshold w. unfold evaluate_link, bind at 1 3. rewrite Hopt.
  destruct (ai_predict_optimal_wavelength solve_ivp env2 (400, 600) 100 w)
    as [[[[opt ints] wls]|e] w1]; [|reflexivity].
  unfold bind. rewrite Htrans. reflexivity.
Qed.


(** C10.  Two dictionaries with the same turbidity give the same attenuation
    coefficient, the same simulated intensity, the same sweep and optimal
    wavelength, the same received intensity and the same link evaluation,
    from every store; and two forms that differ only in temperature and
    salinity give the same run. *)
Theorem temperature_and_salinity_are_ignored
    (solve_ivp : (Q -> Q -> Q) -> Q * Q -> Q -> result Q)
    (env1 env2 : gmap string Q) :
  env1 !! "turbidity" = env2 !! "turbidity" ->
  (forall l w, compute_attenuation_coefficient l env1 w
               = compute_attenuation_coefficient l env2 w)
  /\ (forall l w, compute_intensity_numerical solve_ivp l env1 w
                  = compute_intensity_numerical solve_ivp l env2 w)
  /\ (forall range num w,
        ai_predict_optimal_wavelength solve_ivp env1 range num w
        = ai_predict_optimal_wavelength solve_ivp env2 range num w)
  /\ (forall l w, transmit_data solve_ivp l env1 w = transmit_data solve_ivp l env2 w)
  /\ (forall threshold w,
        evaluate_link solve_ivp env1 threshold w
        = evaluate_link solve_ivp env2 threshold w)
  /\ (forall z a b threshold turbidity temperature1 salinity1 temperature2 salinity2 w,
        start_simulation solve_ivp
          (mkForm z a b threshold (Some temperature1) (Some salinity1) turbidity) w
        = start_simulation solve_ivp
            (mkForm z a b threshold (Some temperature2) (Some salinity2) turbidity) w).
Proof.
  intros Hturb.
  destruct (same_turbidity_same_results solve_ivp env1 env2 Hturb)
    as (Hatt & Hsim & Hopt & Htrans & Hlink).
  repeat (split; [assumption|]).
  intros z a b th tu te1 sa1 te2 sa2 w.
  destruct z as [z|]; [|reflexivity]. destruct a as [a|]; [|reflexivity].
  destruct b as [b|]; [|reflexivity]. destruct th as [th|]; [|reflexivity].
  destruct tu as [tu|]; [|reflexivity].
  unfold start_simulation, read_form, bind, py_float, ret,
    assign_z_max, assign_a0, assign_b0. simpl.
  fold (env_of te1 sa1 tu). fold (env_of te2 sa2 tu).
  destruct (same_turbidity_same_results solve_ivp
              (env_of te1 sa1 tu) (env_of te2 sa2 tu)) as (_ & _ & _ & _ & Hforms).
  { rewrite !env_of_turbidity. reflexivity. }
  rewrite Hforms. reflexivity.
Qed.

Lemma temperature_and_salinity_are_ignored_witness :
  (forall l w, compute_attenuation_coefficient l (env_of 20 35 1) w
               = compute_attenuation_coefficient l (env_of 4 0 1) w)
  /\ (forall l w, compute_intensity_numerical backward_euler l (env_of 20 35 1) w
                  = compute_intensity_numerical backward_euler l (env_of 4 0 1) w)
  /\ (forall range num w,
        ai_predict_optimal_wavelength backward_euler (env_of 20 35 1) range num w
        = ai_predict_optimal_wavelength backward_euler (env_of 4 0 1) range num w)
  /\ (forall l w, transmit_data backward_euler l (env_of 20 35 1) w
                  = transmit_data backward_euler l (env_of 4 0 1) w)
  /\ (forall threshold w,
        evaluate_link backward_euler (env_of 20 35 1) threshold w
        = evaluate_link backward_euler (env_of 4 0 1) threshold w)
  /\ (forall z a b threshold turbidity temperature1 salinity1 temperature2 salinity2 w,
        start_simulation backward_euler
          (mkForm z a b threshold (Some temperature1) (Some salinity1) turbidity) w
        = start_simulation backward_euler
            (mkForm z a b threshold (Some temperature2) (Some salinity2) turbidity) w).
Proof.
  apply (temperature_and_salinity_are_ignored backward_euler
           (env_of 20 35 1) (env_of 4 0 1)).
  reflexivity.
Defined.


(** * Further properties of the code *)

(** ** The attenuation model: bounds and shape *)

Lemma scattering_nonneg b t l : 0 <= b -> 0 <= l -> 0 <= scattering b t l.
Proof.
  intros Hb Hl. unfold scattering.
  apply Qmult_le_0_compat; [apply Qmult_le_0_compat|].
  - exact Hb.
  - apply Qsquare_nonneg.
  - apply Qle_shift_div_l; [reflexivity|lra].
Qed.

Lemma absorption_at_least_baseline a l l_opt : a <= absorption a l l_opt.
Proof.
  unfold absorption, five_e_minus_5.
  pose proof (Qsquare_nonneg (l - l_opt)). lra.
Qed.

Lemma compute_attenuation_coefficient_coefficient wavelength env_data w t a b :
  env_data !! "turbidity" = Some t ->
  g_a0 (globals w) = Some a ->
  g_b0 (globals w) = Some b ->
  compute_attenuation_coefficient wavelength env_data w
  = (Ok (coefficient a b t wavelength), w).
Proof. apply compute_attenuation_coefficient_ok. Qed.

(** X1.  With a scattering baseline and a wavelength that are not negative,
    the attenuation coefficient is never below the absorption baseline [a0],
    at any turbidity; so it is positive whenever [a0] is. *)
Theorem attenuation_coefficient_at_least_a0
    (wavelength : Q) (env_data : gmap string Q) (w : World) (t a b : Q) :
  env_data !! "turbidity" = Some t ->
  g_a0 (globals w) = Some a ->
  g_b0 (globals w) = Some b ->
  0 <= b ->
  0 <= wavelength ->
  exists c,
    compute_attenuation_coefficient wavelength env_data w = (Ok c, w)
    /\ a <= c
    /\ (0 < a -> 0 < c).
Proof.
  intros Ht Ha Hb Hbpos Hlpos.
  exists (coefficient a b t wavelength).
  split; [apply compute_attenuation_coefficient_coefficient; assumption|].
  assert (Hc : a <= coefficient a b t wavelength).
  { unfold coefficient.
    pose proof (absorption_at_least_baseline a wavelength (lambda_opt t)).
    pose proof (scattering_nonneg b t wavelength Hbpos Hlpos). lra. }
  split; [exact Hc|]. intros Hapos. lra.
Qed.

Lemma attenuation_coefficient_at_least_a0_witness :
  exists c,
    compute_attenuation_coefficient 500 sample_env sample_world = (Ok c, sample_world)
    /\ 5 # 100 <= c
    /\ (0 < 5 # 100 -> 0 < c).
Proof.
  apply (attenuation_coefficient_at_least_a0 500 sample_env sample_world
           1 (5 # 100) (2 # 100)).
  - reflexivity.
  - reflexivity.
  - reflexivity.
  - discriminate.
  - discriminate.
Defined.

(** X2.  The absorption term reaches its floor [a0] at [l_opt] and nowhere
    else, and it is symmetric around [l_opt]. *)
Theorem absorption_minimum_is_unique (a l l_opt : Q) :
  (absorption a l l_opt == a <-> l == l_opt)
  /\ (~ l == l_opt -> a < absorption a l l_opt)
  /\ (forall d, absorption a (l_opt + d) l_opt == absorption a (l_opt - d) l_opt).
Proof.
  assert (Hiff : absorption a l l_opt == a <-> l == l_opt).
  { unfold absorption, five_e_minus_5. rewrite Qsquare. split.
    - intros Heq.
      assert (Hsq : (l - l_opt) * (l - l_opt) == 0) by lra.
      apply Qmult_integral in Hsq. destruct Hsq; lra.
    - intros Heq. rewrite Heq. ring. }
  split; [exact Hiff|]. split.
  - intros Hne. pose proof (absorption_at_least_baseline a l l_opt) as Hle.
    apply Qle_lteq in Hle as [Hlt|Heq]; [exact Hlt|].
    exfalso. apply Hne. apply Hiff. symmetry. exact Heq.
  - intros d. unfold absorption. rewrite !Qsquare. ring.
Qed.

Lemma coefficient_square a b t l :
  coefficient a b t l
  == coefficient a b t (least_attenuation_wavelength b t)
     + five_e_minus_5 * (l - least_attenuation_wavelength b t) ^ 2.
Proof.
  unfold coefficient, absorption, scattering, least_attenuation_wavelength,
    five_e_minus_5.
  rewrite !Qsquare. field.
Qed.

(** X3.  The coefficient is a parabola in the wavelength whose vertex lies
    [20 * b0 * turbidity^2] below [l_opt]: at every wavelength it is the
    value at the vertex plus [5e-5] times the squared distance to it, so the
    vertex is where attenuation is least. *)
Theorem attenuation_is_least_below_lambda_opt
    (env_data : gmap string Q) (w : World) (t a b : Q) :
  env_data !! "turbidity" = Some t ->
  g_a0 (globals w) = Some a ->
  g_b0 (globals w) = Some b ->
  exists c_min,
    compute_attenuation_coefficient (lambda_opt t - 20 * b * t ^ 2) env_data w
    = (Ok c_min, w)
    /\ forall l, exists c,
         compute_attenuation_coefficient l env_data w = (Ok c, w)
         /\ c == c_min + five_e_minus_5 * (l - (lambda_opt t - 20 * b * t ^ 2)) ^ 2
         /\ c_min <= c.
Proof.
  intros Ht Ha Hb.
  exists (coefficient a b t (least_attenuation_wavelength b t)).
  split; [apply compute_attenuation_coefficient_coefficient; assumption|].
  intros l. exists (coefficient a b t l).
  split; [apply compute_attenuation_coefficient_coefficient; assumption|].
  split; [apply coefficient_square|].
  rewrite (coefficient_square a b t l).
  pose proof (Qsquare_nonneg (l - least_attenuation_wavelength b t)).
  unfold five_e_minus_5. lra.
Qed.

Lemma attenuation_is_least_below_lambda_opt_witness :
  exists c_min,
    compute_attenuation_coefficient (lambda_opt 1 - 20 * (2 # 100) * 1 ^ 2)
      sample_env sample_world
    = (Ok c_min, sample_world)
    /\ forall l, exists c,
         compute_attenuation_coefficient l sample_env sample_world
         = (Ok c, sample_world)
         /\ c == c_min
                 + five_e_minus_5 * (l - (lambda_opt 1 - 20 * (2 # 100) * 1 ^ 2)) ^ 2
         /\ c_min <= c.
Proof.
  apply (attenuation_is_least_below_lambda_opt sample_env sample_world
           1 (5 # 100) (2 # 100)).
  - reflexivity.
  - reflexivity.
  - reflexivity.
Defined.

(** X4.  [lambda_opt] never decreases as the turbidity grows, and below
    turbidity 10 it is [450 + 10 * turbidity] without a lower clamp: a
    negative turbidity puts it below 450. *)
Theorem lambda_opt_is_monotone (t1 t2 : Q) :
  t1 <= t2 ->
  lambda_opt t1 <= lambda_opt t2
  /\ (forall t, t <= 10 -> lambda_opt t == 450 + 10 * t)
  /\ (forall t, t < 0 -> lambda_opt t < 450).
Proof.
  intros Hle.
  assert (Hlow : forall t, t <= 10 -> lambda_opt t == 450 + 10 * t).
  { intros t Ht. unfold lambda_opt.
    destruct (py_min_cases (t * 10) 100) as [[Hlt _]|[_ ->]]; lra. }
  split; [|split].
  - unfold lambda_opt.
    destruct (py_min_cases (t1 * 10) 100) as [[H1 ->]|[H1 ->]];
      destruct (py_min_cases (t2 * 10) 100) as [[H2 ->]|[H2 ->]]; lra.
  - exact Hlow.
  - intros t Ht. rewrite (Hlow t) by lra. lra.
Qed.

Lemma lambda_opt_is_monotone_witness :
  lambda_opt (-5) <= lambda_opt 3
  /\ (forall t, t <= 10 -> lambda_opt t == 450 + 10 * t)
  /\ (forall t, t < 0 -> lambda_opt t < 450).
Proof. apply (lambda_opt_is_monotone (-5) 3). discriminate. Defined.

(** ** Missing turbidity, unassigned globals, refused entries *)

Section Incomplete.

Variable solve_ivp : (Q -> Q -> Q) -> Q * Q -> Q -> result Q.

(** With something missing, the simulator raises for it, after its entry was
    noted and without consulting the solver. *)
Lemma transmit_data_incomplete l env_data w e :
  first_missing env_data (globals w) = Some e ->
  transmit_data solve_ivp l env_data w
  = (Raise e, mkWorld (globals w) (sim_calls w ++ [l])).
Proof.
  unfold first_missing, transmit_data, compute_intensity_numerical,
    compute_attenuation_coefficient, bind, note_sim_call, dict_get,
    read_global, ret, lift_result.
  destruct w as [[gz ga gb] t]. cbn.
  destruct (env_data !! "turbidity"); cbn; [|intros [= <-]; reflexivity].
  destruct ga; cbn; [|intros [= <-]; reflexivity].
  destruct gb; cbn; [|intros [= <-]; reflexivity].
  destruct gz; cbn; [discriminate|intros [= <-]; reflexivity].
Qed.

(** A grid of at least one sample starts with a sample equal to [lo]. *)
Lemma linspace_head lo hi (n : nat) :
  (1 <= n)%nat ->
  exists l0 r, linspace lo hi (Z.of_nat n) = Ok (l0 :: r) /\ l0 == lo.
Proof.
  intros Hn.
  destruct (linspace_spec lo hi n) as (wls & Hlin & Hlen & Hgrid & _).
  destruct wls as [|l0 r]; [simpl in Hlen; lia|].
  exists l0, r. split; [exact Hlin|].
  rewrite (Hgrid 0%nat l0 eq_refl). apply evenly_spaced_first.
Qed.

End Incomplete.

(** X5.  When the dictionary has no turbidity or a global is unassigned, a
    sweep of at least one sample raises for the first thing missing
    ([KeyError] for the turbidity, then [NameError] for [a0], [b0], [z_max]
    in this order), whatever the solver: it stops in the first sample, which
    is the only entry it adds to the trace. *)
Theorem optimizer_raises_for_first_missing
    (solve_ivp : (Q -> Q -> Q) -> Q * Q -> Q -> result Q)
    (env_data : gmap string Q) (lo hi : Q) (n : nat) (w : World) (e : exn) :
  (1 <= n)%nat ->
  first_missing env_data (globals w) = Some e ->
  exists l0,
    l0 == lo
    /\ ai_predict_optimal_wavelength solve_ivp env_data (lo, hi) (Z.of_nat n) w
       = (Raise e, mkWorld (globals w) (sim_calls w ++ [l0])).
Proof.
  intros Hn Hmiss.
  destruct (linspace_head lo hi n Hn) as (l0 & r & Hlin & Hl0).
  exists l0. split; [exact Hl0|].
  rewrite ai_predict_optimal_wavelength_unfold.
  unfold bind at 1. unfold lift_result at 1. simpl. rewrite Hlin.
  unfold bind at 1. unfold sweep. simpl. unfold bind at 1.
  rewrite (transmit_data_incomplete solve_ivp l0 env_data w e Hmiss).
  reflexivity.
Qed.

Lemma optimizer_raises_for_first_missing_witness :
  exists l0,
    l0 == 400
    /\ ai_predict_optimal_wavelength backward_euler sample_env (400, 600)
         (Z.of_nat 100) initial_world
       = (Raise (NameError "a0"),
          mkWorld (globals initial_world) (sim_calls initial_world ++ [l0])).
Proof.
  apply (optimizer_raises_for_first_missing backward_euler sample_env 400 600 100
           initial_world (NameError "a0")).
  - lia.
  - reflexivity.
Defined.

Ltac refused_entry :=
  split; [reflexivity|split; [intros _; reflexivity|discriminate]].

(** X6.  [start_simulation] assigns the globals entry by entry: after any
    run they are the old ones overwritten up to the first entry that [float]
    refuses.  When some entry is refused the run ends in the "Invalid input"
    branch without entering the simulator, and the globals converted before
    the refused entry stay assigned; when every entry converts the run never
    ends in that branch. *)
Theorem start_simulation_assigns_globals_in_order
    (solve_ivp : (Q -> Q -> Q) -> Q * Q -> Q -> result Q)
    (form : Form) (w : World) :
  globals (snd (start_simulation solve_ivp form w))
  = globals_after_form form (globals w)
  /\ (converts form = false ->
      start_simulation solve_ivp form w
      = (Ok None, mkWorld (globals_after_form form (globals w)) (sim_calls w)))
  /\ (converts form = true ->
      fst (start_simulation solve_ivp form w) <> Ok None).
Proof.
  destruct form as [z a b th te sa tu]. destruct w as [g t].
  destruct z as [z|]; [|refused_entry].
  destruct a as [a|]; [|refused_entry].
  destruct b as [b|]; [|refused_entry].
  destruct th as [th|]; [|refused_entry].
  destruct te as [te|]; [|refused_entry].
  destruct sa as [sa|]; [|refused_entry].
  destruct tu as [tu|]; [|refused_entry].
  unfold start_simulation, read_form, bind, py_float, ret,
    assign_z_max, assign_a0, assign_b0, converts, globals_after_form. simpl.
  fold (env_of te sa tu).
  pose proof (tracing_globals _ (mkWorld (mkGlobals (Some z) (Some a) (Some b)) t)
                (tracing_evaluate_link solve_ivp (env_of te sa tu) th)) as Hglob.
  destruct (evaluate_link solve_ivp (env_of te sa tu) th
              (mkWorld (mkGlobals (Some z) (Some a) (Some b)) t)) as [[r|e] w1];
    simpl in Hglob |- *; (split; [exact Hglob|]); split; discriminate.
Qed.

Lemma start_simulation_assigns_globals_in_order_witness :
  start_simulation backward_euler
    (mkForm (Some 10) (Some 1) None (Some (5 # 100)) (Some 20) (Some 35) (Some 1))
    sample_world
  = (Ok None, mkWorld (mkGlobals (Some 10) (Some 1) (Some (2 # 100))) []).
Proof.
  apply (start_simulation_assigns_globals_in_order backward_euler
           (mkForm (Some 10) (Some 1) None (Some (5 # 100)) (Some 20) (Some 35) (Some 1))
           sample_world).
  reflexivity.
Defined.

(** ** A sample the solver fails on *)

Section FailingSample.

Variable solve_ivp : (Q -> Q -> Q) -> Q * Q -> Q -> result Q.

Lemma sweep_stops_at_first_failure env_data pre l post w e :
  (forall x, x ∈ pre -> exists y, fst (transmit_data solve_ivp x env_data w) = Ok y) ->
  fst (transmit_data solve_ivp l env_data w) = Raise e ->
  sweep solve_ivp env_data (pre ++ l :: post) w
  = (Raise e, mkWorld (globals w) (sim_calls w ++ pre ++ [l])).
Proof.
  unfold sweep. revert w.
  induction pre as [|x pre IH]; intros w Hpre Hl; simpl.
  - unfold bind at 1.
    pose proof (transmit_data_world solve_ivp l env_data w) as Hw.
    destruct (transmit_data solve_ivp l env_data w) as [[y|e'] w1];
      simpl in Hw, Hl; subst w1; [discriminate|].
    injection Hl as ->. reflexivity.
  - unfold bind at 1.
    pose proof (transmit_data_world solve_ivp x env_data w) as Hw.
    destruct (Hpre x) as [y Hy]; [left|].
    destruct (transmit_data solve_ivp x env_data w) as [[y'|e'] w1];
      simpl in Hw, Hy; subst w1; [|discriminate].
    unfold bind at 1. rewrite IH.
    + simpl. rewrite <- app_assoc. reflexivity.
    + intros x' Hx'. destruct (Hpre x') as [y2 Hy2]; [right; exact Hx'|].
      exists y2. rewrite <- Hy2. apply tracing_result; [|reflexivity].
      apply tracing_transmit_data.
    + rewrite <- Hl. apply tracing_result; [|reflexivity].
      apply tracing_transmit_data.
Qed.

End FailingSample.

(** X7.  When the simulator raises at some sample of the sweep and every
    sample before it was simulated, the optimizer raises that exception: the
    samples after it are not simulated, and none is skipped. *)
Theorem optimizer_stops_at_first_failing_sample
    (solve_ivp : (Q -> Q -> Q) -> Q * Q -> Q -> result Q)
    (env_data : gmap string Q) (range : Q * Q) (num_points : Z) (w : World)
    (pre : list Q) (l : Q) (post : list Q) (e : exn) :
  linspace (fst range) (snd range) num_points = Ok (pre ++ l :: post) ->
  (forall x, x ∈ pre ->
     exists v, fst (compute_intensity_numerical solve_ivp x env_data w) = Ok v) ->
  fst (compute_intensity_numerical solve_ivp l env_data w) = Raise e ->
  ai_predict_optimal_wavelength solve_ivp env_data range num_points w
  = (Raise e, mkWorld (globals w) (sim_calls w ++ pre ++ [l])).
Proof.
  intros Hlin Hpre Hl.
  rewrite ai_predict_optimal_wavelength_unfold.
  unfold bind at 1. unfold lift_result at 1. rewrite Hlin.
  unfold bind at 1.
  rewrite (sweep_stops_at_first_failure solve_ivp env_data pre l post w e).
  - reflexivity.
  - intros x Hx. destruct (Hpre x Hx) as [v Hv]. exists (h * v).
    apply transmit_data_value. eauto.
  - unfold transmit_data, bind.
    destruct (compute_intensity_numerical solve_ivp l env_data w) as [[v|e'] w1];
      simpl in Hl |- *; congruence.
Qed.

Lemma optimizer_stops_at_first_failing_sample_witness :
  ai_predict_optimal_wavelength capped_solver sample_env (450, 600) 4 sample_world
  = (Raise IndexError,
     mkWorld (globals sample_world)
             (sim_calls sample_world ++ [1350 # 3; 1500 # 3] ++ [1650 # 3])).
Proof.
  apply (optimizer_stops_at_first_failing_sample capped_solver sample_env (450, 600) 4
           sample_world [1350 # 3; 1500 # 3] (1650 # 3) [600] IndexError).
  - reflexivity.
  - intros x Hx.
    apply list_elem_of_In in Hx. simpl in Hx.
    destruct Hx as [<-|[<-|[]]]; eexists; vm_compute; reflexivity.
  - reflexivity.
Defined.

(** ** The optimum and the range *)

(** Every sample of the grid is a convex combination of the two ends. *)
Lemma evenly_spaced_between lo hi (n i : nat) :
  (i < n)%nat ->
  exists theta,
    0 <= theta /\ theta <= 1
    /\ evenly_spaced lo hi n i == lo + theta * (hi - lo).
Proof.
  intros Hi. unfold evenly_spaced.
  destruct (decide (n = 1%nat)) as [->|Hn].
  - assert (i = 0%nat) by lia. subst i. exists 0.
    split; [apply Qle_refl|]. split; [discriminate|]. simpl. ring.
  - assert (Hpos : 0 < inject_Z (Z.of_nat n - 1)).
    { change 0 with (inject_Z 0). rewrite <- Zlt_Qlt. lia. }
    exists (inject_Z (Z.of_nat i) / inject_Z (Z.of_nat n - 1)).
    split; [|split].
    + apply Qle_shift_div_l; [exact Hpos|].
      rewrite Qmult_0_l. change 0 with (inject_Z 0). rewrite <- Zle_Qle. lia.
    + apply Qle_shift_div_r; [exact Hpos|].
      rewrite Qmult_1_l. rewrite <- Zle_Qle. lia.
    + field. intros Heq. rewrite Heq in Hpos. exact (Qlt_irrefl _ Hpos).
Qed.

Lemma between_ends lo hi theta :
  0 <= theta -> theta <= 1 ->
  Qmin lo hi <= lo + theta * (hi - lo) /\ lo + theta * (hi - lo) <= Qmax lo hi.
Proof.
  intros H0 H1.
  destruct (Q.min_spec lo hi) as [[Hlt ->]|[Hle ->]];
    destruct (Q.max_spec lo hi) as [[Hlt' ->]|[Hle' ->]]; split; nra.
Qed.

(** Every wavelength [linspace] generates lies between the two ends. *)
Lemma linspace_between lo hi num wls i l :
  linspace lo hi num = Ok wls ->
  wls !! i = Some l ->
  Qmin lo hi <= l /\ l <= Qmax lo hi.
Proof.
  intros Hlin Hl.
  destruct (Z.ltb_spec num 0) as [Hneg|Hpos].
  { rewrite (linspace_negative lo hi num Hneg) in Hlin. discriminate. }
  destruct (linspace_spec lo hi (Z.to_nat num)) as (wls' & Hlin' & Hlen & Hgrid & _).
  rewrite Z2Nat.id in Hlin' by exact Hpos.
  assert (wls' = wls) by congruence. subst wls'.
  pose proof (lookup_lt_Some _ _ _ Hl) as Hi. rewrite Hlen in Hi.
  destruct (evenly_spaced_between lo hi (Z.to_nat num) i Hi)
    as (theta & H0 & H1 & Heq).
  rewrite (Hgrid _ _ Hl), Heq. apply between_ends; assumption.
Qed.

(** X8.  Whatever the optimizer returns lies between the two ends of the
    range, in whichever order they come, and so does every wavelength it
    swept; on a range with equal ends it returns that end. *)
Theorem optimum_lies_in_range
    (solve_ivp : (Q -> Q -> Q) -> Q * Q -> Q -> result Q)
    (env_data : gmap string Q) (lo hi : Q) (num_points : Z) (w : World)
    (opt : Q) (ints wls : list Q) (w' : World) :
  ai_predict_optimal_wavelength solve_ivp env_data (lo, hi) num_points w
  = (Ok (opt, ints, wls), w') ->
  (Qmin lo hi <= opt /\ opt <= Qmax lo hi)
  /\ (forall i l, wls !! i = Some l -> Qmin lo hi <= l /\ l <= Qmax lo hi)
  /\ (lo == hi -> opt == lo).
Proof.
  intros Hrun.
  apply ai_predict_optimal_wavelength_inv in Hrun as (Hlin & _ & _ & k & _ & Hopt).
  simpl in Hlin.
  pose proof (linspace_between lo hi num_points wls k opt Hlin Hopt) as [Hlow Hhigh].
  split; [split; assumption|]. split.
  - intros i l Hl. exact (linspace_between lo hi num_points wls i l Hlin Hl).
  - intros Heq.
    destruct (Q.min_spec lo hi) as [[Hlt Hmin]|[Hle Hmin]];
      destruct (Q.max_spec lo hi) as [[Hlt' Hmax]|[Hle' Hmax]];
      rewrite Hmin in Hlow; rewrite Hmax in Hhigh; lra.
Qed.

Lemma optimum_lies_in_range_witness :
  (Qmin 600 400 <= 400 /\ 400 <= Qmax 600 400)
  /\ (forall i l, [600; 400] !! i = Some l -> Qmin 600 400 <= l /\ l <= Qmax 600 400)
  /\ (600 == 400 -> 400 == 600).
Proof.
  apply (optimum_lies_in_range backward_euler sample_env 600 400 2 sample_world
           400 [500000000000 # 26850000000000; 500000000000 # 6650000000000]
           [600; 400] (mkWorld (globals sample_world) [600; 400])).
  vm_compute. reflexivity.
Defined.

(** ** The threshold, the globals and a complete run *)

Section LinkShape.

Variable solve_ivp : (Q -> Q -> Q) -> Q * Q -> Q -> result Q.

Lemma evaluate_link_threshold env_data th1 th2 w :
  evaluate_link solve_ivp env_data th2 w
  = match evaluate_link solve_ivp env_data th1 w with
    | (Ok r, w') => (Ok (with_threshold r th2), w')
    | (Raise e, w') => (Raise e, w')
    end.
Proof.
  unfold evaluate_link, bind at 1 3.
  destruct (ai_predict_optimal_wavelength solve_ivp env_data (400, 600) 100 w)
    as [[[[opt ints] wls]|e] w1]; [|reflexivity].
  unfold bind, ret.
  destruct (transmit_data solve_ivp opt env_data w1) as [[y|e] w2]; reflexivity.
Qed.

End LinkShape.

(** X9.  The threshold entry decides the verdict and nothing else: with
    another threshold the run reports the same optimal wavelength, received
    intensity, samples and store, and a lower threshold keeps a verdict that
    was [true]. *)
Theorem threshold_decides_only_the_verdict
    (solve_ivp : (Q -> Q -> Q) -> Q * Q -> Q -> result Q)
    (z a b : option Q) (th1 th2 : Q) (te sa tu : option Q)
    (w : World) (r : Report) (w' : World) :
  start_simulation solve_ivp (mkForm z a b (Some th1) te sa tu) w
  = (Ok (Some r), w') ->
  start_simulation solve_ivp (mkForm z a b (Some th2) te sa tu) w
  = (Ok (Some (with_threshold r th2)), w')
  /\ (th2 <= th1 -> meets_threshold r = true ->
      meets_threshold (with_threshold r th2) = true).
Proof.
  intros Hrun. split.
  - destruct z as [z|]; [|discriminate]. destruct a as [a|]; [|discriminate].
    destruct b as [b|]; [|discriminate]. destruct te as [te|]; [|discriminate].
    destruct sa as [sa|]; [|discriminate]. destruct tu as [tu|]; [|discriminate].
    revert Hrun.
    unfold start_simulation, read_form, bind, py_float, ret,
      assign_z_max, assign_a0, assign_b0. simpl.
    fold (env_of te sa tu).
    rewrite (evaluate_link_threshold solve_ivp (env_of te sa tu) th1 th2).
    destruct (evaluate_link solve_ivp (env_of te sa tu) th1 _) as [[r1|e] w1];
      [|discriminate].
    intros [= <- <-]. reflexivity.
  - intros Hle Hmeets.
    apply start_simulation_inv in Hrun as (th & env & w0 & Hread & Hlink).
    apply read_form_ok in Hread as (z' & a' & b' & te' & sa' & tu' & Hform & _).
    injection Hform as _ _ _ <- _ _ _.
    apply evaluate_link_inv in Hlink as (_ & _ & _ & Hverdict).
    rewrite Hverdict in Hmeets. apply py_ge_true in Hmeets.
    simpl. apply py_ge_true. eapply Qle_trans; eassumption.
Qed.

Lemma threshold_decides_only_the_verdict_witness :
  start_simulation backward_euler
    (mkForm (Some 50) (Some (5 # 100)) (Some (2 # 100)) (Some (1 # 100))
            (Some 20) (Some 35) (Some 1))
    initial_world
  = (Ok (Some (with_threshold (fst sample_report) (1 # 100))), snd sample_report)
  /\ (1 # 100 <= 5 # 100 -> meets_threshold (fst sample_report) = true ->
      meets_threshold (with_threshold (fst sample_report) (1 # 100)) = true).
Proof.
  apply (threshold_decides_only_the_verdict backward_euler
           (Some 50) (Some (5 # 100)) (Some (2 # 100)) (5 # 100) (1 # 100)
           (Some 20) (Some 35) (Some 1) initial_world
           (fst sample_report) (snd sample_report)).
  exact sample_run.
Defined.

(** X10.  The optimizer, [transmit_data] and the link evaluation never assign
    a global, whether they return or raise, and what they return does not
    depend on what was simulated before. *)
Theorem core_never_assigns_globals
    (solve_ivp : (Q -> Q -> Q) -> Q * Q -> Q -> result Q)
    (env_data : gmap string Q) (range : Q * Q) (num_points : Z)
    (l threshold : Q) (w : World) :
  globals (snd (ai_predict_optimal_wavelength solve_ivp env_data range num_points w))
  = globals w
  /\ globals (snd (transmit_data solve_ivp l env_data w)) = globals w
  /\ globals (snd (evaluate_link solve_ivp env_data threshold w)) = globals w
  /\ (forall calls,
        fst (ai_predict_optimal_wavelength solve_ivp env_data range num_points
               (mkWorld (globals w) calls))
        = fst (ai_predict_optimal_wavelength solve_ivp env_data range num_points w))
  /\ (forall calls,
        fst (evaluate_link solve_ivp env_data threshold (mkWorld (globals w) calls))
        = fst (evaluate_link solve_ivp env_data threshold w)).
Proof.
  split; [|split; [|split; [|split]]].
  - apply tracing_globals, tracing_ai_predict_optimal_wavelength.
  - apply tracing_globals, tracing_transmit_data.
  - apply tracing_globals, tracing_evaluate_link.
  - intros calls. apply tracing_result;
      [apply tracing_ai_predict_optimal_wavelength|reflexivity].
  - intros calls. apply tracing_result; [apply tracing_evaluate_link|reflexivity].
Qed.

(** X11.  When every entry of the form converts and the solver returns, the
    run reports: 100 wavelengths and 100 intensities, an optimal wavelength
    between 400 and 600, the three globals assigned from the form, and 101
    entries of the simulator added to the trace. *)
Theorem start_simulation_reports
    (solve_ivp : (Q -> Q -> Q) -> Q * Q -> Q -> result Q)
    (z a b th te sa tu : Q) (w : World) :
  solver_returns solve_ivp z ->
  exists r w',
    start_simulation solve_ivp
      (mkForm (Some z) (Some a) (Some b) (Some th) (Some te) (Some sa) (Some tu)) w
    = (Ok (Some r), w')
    /\ length (wavelengths r) = 100%nat
    /\ length (intensities r) = 100%nat
    /\ 400 <= optimal_wavelength r
    /\ optimal_wavelength r <= 600
    /\ globals w' = mkGlobals (Some z) (Some a) (Some b)
    /\ length (sim_calls w') = (length (sim_calls w) + 101)%nat.
Proof.
  intros Hs.
  set (w0 := mkWorld (mkGlobals (Some z) (Some a) (Some b)) (sim_calls w)).
  destruct (ai_predict_optimal_wavelength_returns solve_ivp (env_of te sa tu)
              400 600 100 w0 tu z a b (env_of_turbidity te sa tu) eq_refl Hs)
    as (opt & ints & wls & Hrun); [lia|].
  change (Z.of_nat 100) with 100%Z in Hrun.
  pose proof (ai_predict_optimal_wavelength_inv _ _ _ _ _ _ _ _ _ Hrun)
    as (Hlin & _ & Hall & k & _ & Hopt).
  simpl in Hlin.
  destruct (linspace_spec 400 600 100) as (wls' & Hlin' & Hlen & _).
  change (Z.of_nat 100) with 100%Z in Hlin'.
  assert (wls' = wls) by congruence. subst wls'.
  set (w1 := mkWorld (globals w0) (sim_calls w0 ++ wls)) in *.
  destruct (transmit_data_returns solve_ivp opt (env_of te sa tu) w1 tu z a b
              (env_of_turbidity te sa tu) eq_refl Hs) as [y Hy].
  pose proof (transmit_data_world solve_ivp opt (env_of te sa tu) w1) as Hw2.
  destruct (transmit_data solve_ivp opt (env_of te sa tu) w1) as [[y'|e] w2] eqn:Et;
    simpl in Hy, Hw2; [|discriminate].
  exists (mkReport opt y' ints wls (py_ge y' th)), w2.
  split.
  { unfold start_simulation, read_form, bind, py_float, ret,
      assign_z_max, assign_a0, assign_b0. simpl.
    fold (env_of te sa tu). fold w0.
    unfold evaluate_link, bind. rewrite Hrun. fold w1. rewrite Et. reflexivity. }
  simpl. split; [exact Hlen|].
  split; [apply Forall2_length in Hall; congruence|].
  pose proof (linspace_between 400 600 100 wls k opt Hlin Hopt) as [Hlow Hhigh].
  rewrite Q.min_l in Hlow by discriminate.
  rewrite Q.max_r in Hhigh by discriminate.
  split; [exact Hlow|]. split; [exact Hhigh|].
  subst w2. split; [reflexivity|].
  simpl. rewrite !length_app, Hlen. simpl. lia.
Qed.

Lemma start_simulation_reports_witness :
  exists r w',
    start_simulation backward_euler
      (mkForm (Some 50) (Some (5 # 100)) (Some (2 # 100)) (Some (5 # 100))
              (Some 20) (Some 35) (Some 1)) initial_world
    = (Ok (Some r), w')
    /\ length (wavelengths r) = 100%nat
    /\ length (intensities r) = 100%nat
    /\ 400 <= optimal_wavelength r
    /\ optimal_wavelength r <= 600
    /\ globals w' = mkGlobals (Some 50) (Some (5 # 100)) (Some (2 # 100))
    /\ length (sim_calls w') = (length (sim_calls initial_world) + 101)%nat.
Proof.
  apply (start_simulation_reports backward_euler 50 (5 # 100) (2 # 100) (5 # 100)
           20 35 1 initial_world).
  apply backward_euler_returns.
Defined.

(** ** The optimizer against the attenuation model *)


Section LeastAttenuation.

Variable solve_ivp : (Q -> Q -> Q) -> Q * Q -> Q -> result Q.



End LeastAttenuation.




